(** * Spotted: report ledger, row-level policies, reward and duplicate check

    A shallow embedding of the persistence layer of the Spotted app:
    the SQL schema (tables [violation_types] and [reports], their row-level
    security policies, the view [user_stats], the functions
    [calculate_reward] and [check_duplicate_report]) and of the JavaScript
    client helpers built on it ([createReport], [getUserReports],
    [calculateUserStats], [checkDuplicate]).

    The schema is supabase-schema.sql (src/unnamed/part_000), the helpers
    are lib/supabase.js (the second document of src/tailwind.config.js).

    Conventions of the model.
    - A [decimal(p, s)] column holds the integer count of [10^-s] units
      (a reward of 17.50 is the integer 1750).
    - A JavaScript number is the rational it stands for.  A number the
      client sends is stored in a [decimal] column, whose rounding absorbs
      the error of a double by many orders of magnitude for the integer
      fines the catalog holds; the numbers the client adds up or divides
      itself ([calculateUserStats]) are rounded to binary64 after every
      operation (module [Double]).
    - A string is a sequence of code units; [toUpperCase] is the built-in
      on ASCII text ([is_ascii]), the only text on which it is modelled.
    - A timestamp is a number of milliseconds since the epoch; the client
      and the database read the same clock.
    - A uuid is a natural number; only equality of uuids is used. *)

From Stdlib Require Import ZArith QArith Qround Qabs Qpower Lia Lqa.
From stdpp Require Import gmap strings list sorting pretty.

Open Scope Z_scope.

(** ** Numbers *)

Module Numeric.

(** [round(x)] to an integer, ties away from zero (PostgreSQL [numeric]). *)
Definition round_half_away (q : Q) : Z :=
  if Qle_bool 0 q then Qfloor (q + (1 # 2)) else Qceiling (q - (1 # 2)).

(** [round(q, s)] as a count of [10^-s] units. *)
Definition round_scale (s : nat) (q : Q) : Z :=
  round_half_away (q * inject_Z (10 ^ Z.of_nat s)).

(** The rational a [decimal(_, s)] value stands for. *)
Definition decimal_value (s : nat) (z : Z) : Q :=
  inject_Z z / inject_Z (10 ^ Z.of_nat s).

(** A value fits [decimal(p, s)] when it has at most [p] digits. *)
Definition fits_precision (p : nat) (z : Z) : bool :=
  Z.abs z <? 10 ^ Z.of_nat p.

(** Coercion of a client number to a [decimal(p, s)] column: rounded to
    the scale, refused when it overflows the precision. *)
Definition to_decimal (p s : nat) (q : Q) : option Z :=
  let z := round_scale s q in
  if fits_precision p z then Some z else None.

(** A PostgreSQL [integer] is a signed 32-bit number. *)
Definition fits_int4 (z : Z) : bool :=
  (- 2 ^ 31 <=? z) && (z <? 2 ^ 31).

(** JavaScript [Math.round]: ties towards plus infinity. *)
Definition Math_round (q : Q) : Z := Qfloor (q + (1 # 2)).

End Numeric.

Import Numeric.

(** ** JavaScript numbers (IEEE 754 binary64) *)

Module Double.

(** The nearest integer, ties to the even one. *)
Definition nearest_even (q : Q) : Z :=
  let f := Qfloor q in
  match (q - inject_Z f ?= 1 # 2)%Q with
  | Lt => f
  | Gt => f + 1
  | Eq => if Z.even f then f else f + 1
  end.

(** The binary order of magnitude: the [e] with [2^e <= |q| < 2^(e+1)],
    for [q] other than zero. *)
Definition ilog2 (q : Q) : Z :=
  let e := Z.log2 (Z.abs (Qnum q)) - Z.log2 (Zpos (Qden q)) in
  if Qle_bool (2 ^ e) (Qabs q) then e else e - 1.

(** The exponent of the last place of the double next to [q]: 53
    significant bits, and no place below [2^-1074]. *)
Definition exponent (q : Q) : Z := Z.max (ilog2 q - 52) (- 1074).

(** The double nearest to [q], ties to even.  Magnitudes from [2^1024]
    on, which are [Infinity] in JavaScript, are not represented. *)
Definition round (q : Q) : Q :=
  if Qeq_bool q 0 then 0%Q
  else (inject_Z (nearest_even (q / 2 ^ exponent q)) * 2 ^ exponent q)%Q.

(** [x + y], [x * y] and [x / y] on doubles. *)
Definition add (x y : Q) : Q := round (x + y).
Definition mul (x y : Q) : Q := round (x * y).
Definition div (x y : Q) : Q := round (x / y).

End Double.

(** ** Strings *)

Module Text.

(** [String.prototype.toUpperCase] on the ASCII range: the letters
    [a]..[z] move to [A]..[Z], every other code unit is kept. *)
Definition upper_ascii (c : Ascii.ascii) : Ascii.ascii :=
  let n := Ascii.N_of_ascii c in
  if ((97 <=? n) && (n <=? 122))%N then Ascii.ascii_of_N (n - 32) else c.

Fixpoint toUpperCase (s : string) : string :=
  match s with
  | EmptyString => EmptyString
  | String c s' => String (upper_ascii c) (toUpperCase s')
  end.

(** Text of ASCII characters only: every code unit is below 128.  Outside
    it the built-in follows the Unicode case mapping, which this model does
    not hold. *)
Fixpoint is_ascii (s : string) : bool :=
  match s with
  | EmptyString => true
  | String c s' => (Ascii.N_of_ascii c <? 128)%N && is_ascii s'
  end.

End Text.

Import Text.

(** ** Schema (supabase-schema.sql) *)

Module Schema.

Definition uuid : Type := N.
Definition timestamp : Type := Z.

(** [check (status in ('pending', 'approved', 'rejected'))] *)
Inductive report_status : Type := pending | approved | rejected.

#[export] Instance report_status_eq_dec : EqDecision report_status.
Proof. solve_decision. Defined.

(** [public.violation_types], keyed by its primary key [id]. *)
Record violation_type_row : Type := {
  label : string;
  fine : Z;
  icon : string;
  description : option string
}.

(** [public.reports].  Nullable columns are options. *)
Record report : Type := {
  id : uuid;
  user_id : uuid;
  violation_type : string;
  latitude : option Z;          (* decimal(10, 8) *)
  longitude : option Z;         (* decimal(11, 8) *)
  location_text : option string;
  photo_url : option string;
  plate_number : option string;
  status : report_status;
  rejection_reason : option string;
  fine_amount : option Z;       (* integer *)
  reward_amount : option Z;     (* decimal(10, 2) *)
  paid_out : bool;
  paid_out_at : option timestamp;
  reported_at : timestamp;
  reviewed_at : option timestamp;
  created_at : timestamp;
  updated_at : timestamp
}.

#[export] Instance violation_type_row_eq_dec : EqDecision violation_type_row.
Proof. solve_decision. Defined.

#[export] Instance report_eq_dec : EqDecision report.
Proof. solve_decision. Defined.

(** The tables.  [profiles] is kept as the set of its primary keys, which
    is all that [reports.user_id] and the view [user_stats] refer to. *)
Record database : Type := {
  profiles : gset uuid;
  violation_types : gmap string violation_type_row;
  reports : list report
}.

Definition with_reports (db : database) (rows : list report) : database :=
  {| profiles := profiles db;
     violation_types := violation_types db;
     reports := rows |}.

Definition with_violation_types (db : database)
    (cat : gmap string violation_type_row) : database :=
  {| profiles := profiles db;
     violation_types := cat;
     reports := reports db |}.

(** [insert into public.violation_types ... values ...] *)
Definition seed_violation_types : gmap string violation_type_row :=
  list_to_map [
    ("hydrant", {| label := "Fire Hydrant"; fine := 115; icon := "🚒";
                   description := Some "Within 15ft of hydrant" |});
    ("double", {| label := "Double Parked"; fine := 115; icon := "🚗";
                  description := Some "Blocking travel lane" |});
    ("bike", {| label := "Bike Lane"; fine := 175; icon := "🚲";
                description := Some "Blocking bicycle lane" |});
    ("bus", {| label := "Bus Stop/Lane"; fine := 175; icon := "🚌";
               description := Some "In bus zone or lane" |});
    ("crosswalk", {| label := "Crosswalk"; fine := 115; icon := "🚶";
                     description := Some "Blocking pedestrian crossing" |});
    ("sidewalk", {| label := "Sidewalk"; fine := 115; icon := "♿";
                    description := Some "On sidewalk/ramp" |})
  ].

Inductive pg_error : Type :=
  | numeric_overflow        (* value out of range of its column *)
  | rls_violation           (* new row violates row-level security policy *)
  | unique_violation        (* duplicate primary key *)
  | foreign_key_violation
  | no_single_row           (* .single() on a result that is not one row *)
  | transport_failure.      (* the request did not reach the database *)

#[export] Instance pg_error_eq_dec : EqDecision pg_error.
Proof. solve_decision. Defined.

End Schema.

Import Schema.

(** ** Row-level security policies on [public.reports] *)

Module Policy.

(** ["Users can view own reports"]: [using (auth.uid() = user_id)].
    [auth.uid()] is NULL without a session, and NULL = x is not true. *)
Definition reports_select_using (uid : option uuid) (r : report) : bool :=
  bool_decide (uid = Some (user_id r)).

(** ["Users can create own reports"]: [with check (auth.uid() = user_id)]. *)
Definition reports_insert_check (uid : option uuid) (r : report) : bool :=
  bool_decide (uid = Some (user_id r)).

(** ["Users can update own pending reports"]:
    [using (auth.uid() = user_id and status = 'pending')]. *)
Definition reports_update_using (uid : option uuid) (r : report) : bool :=
  bool_decide (uid = Some (user_id r)) && bool_decide (status r = pending).

(** The policy declares no [with check].  For an update policy
    PostgreSQL then uses the [using] expression for both: the rows the
    statement may operate on, and the rows it may store back. *)
Definition reports_update_check (uid : option uuid) (r : report) : bool :=
  reports_update_using uid r.

End Policy.

Import Policy.

(** ** The database under row-level security *)

Module Pg.

(** The body of a [POST /reports]: the columns the client names. *)
Record insert_payload : Type := {
  ins_user_id : uuid;
  ins_violation_type : string;
  ins_latitude : option Q;
  ins_longitude : option Q;
  ins_location_text : option string;
  ins_photo_url : option string;
  ins_plate_number : option string;
  ins_fine_amount : Z;
  ins_reward_amount : Q;
  ins_status : report_status
}.

(** A nullable number sent to a [decimal(p, s)] column: [None] when it
    overflows, [Some None] for NULL. *)
Definition coerce_decimal (p s : nat) (v : option Q) : option (option Z) :=
  match v with
  | None => Some None
  | Some q => match to_decimal p s q with
              | Some z => Some (Some z)
              | None => None
              end
  end.

(** The row an insert builds: named columns coerced to their types, the
    others taken from their defaults ([uuid_generate_v4()], [now()],
    [false], NULL). *)
Definition build_row (now : timestamp) (new_id : uuid) (p : insert_payload)
    : option report :=
  match coerce_decimal 10 8 (ins_latitude p),
        coerce_decimal 11 8 (ins_longitude p),
        to_decimal 10 2 (ins_reward_amount p) with
  | Some lat, Some lng, Some reward =>
      if fits_int4 (ins_fine_amount p) then
        Some {| id := new_id;
                user_id := ins_user_id p;
                violation_type := ins_violation_type p;
                latitude := lat;
                longitude := lng;
                location_text := ins_location_text p;
                photo_url := ins_photo_url p;
                plate_number := ins_plate_number p;
                status := ins_status p;
                rejection_reason := None;
                fine_amount := Some (ins_fine_amount p);
                reward_amount := Some reward;
                paid_out := false;
                paid_out_at := None;
                reported_at := now;
                reviewed_at := None;
                created_at := now;
                updated_at := now |}
      else None
  | _, _, _ => None
  end.

(** [references public.profiles(id)] and
    [references public.violation_types(id)]. *)
Definition foreign_keys_ok (db : database) (r : report) : bool :=
  bool_decide (user_id r ∈ profiles db) &&
  bool_decide (is_Some (violation_types db !! violation_type r)).

(** [primary key]: the number of rows carrying a given id. *)
Definition count_id (rows : list report) (i : uuid) : nat :=
  length (List.filter (λ r, bool_decide (id r = i)) rows).

(** [insert into public.reports ... returning *] for the requester [uid].
    The policy check precedes the constraints, as in PostgreSQL. *)
Definition insert_report (db : database) (uid : option uuid)
    (now : timestamp) (new_id : uuid) (p : insert_payload)
    : pg_error + (database * report) :=
  match build_row now new_id p with
  | None => inl numeric_overflow
  | Some r =>
      if negb (reports_insert_check uid r) then inl rls_violation
      else if negb (Nat.eqb (count_id (reports db) new_id) 0)
      then inl unique_violation
      else if negb (foreign_keys_ok db r) then inl foreign_key_violation
      else inr (with_reports db (reports db ++ [r]), r)
  end.

(** [select * from public.reports where w]: the rows the policy shows. *)
Definition select_reports (db : database) (uid : option uuid)
    (w : report → bool) : list report :=
  List.filter (λ r, reports_select_using uid r && w r) (reports db).

(** The rows an [update ... where w] operates on: it reads through the
    select policy and writes through the update policy. *)
Definition update_targets (uid : option uuid) (w : report → bool)
    (r : report) : bool :=
  reports_select_using uid r && reports_update_using uid r && w r.

Definition updated_row (uid : option uuid) (w : report → bool)
    (set : report → report) (r : report) : report :=
  if update_targets uid w r then set r else r.

(** Constraints of the rows an update wrote, checked in the new table. *)
Definition written_ok (db : database) (rows' : list report) (r' : report)
    : option pg_error :=
  if negb (Nat.eqb (count_id rows' (id r')) 1) then Some unique_violation
  else if negb (foreign_keys_ok db r') then Some foreign_key_violation
  else None.

Fixpoint first_error (db : database) (rows' : list report)
    (written : list report) : option pg_error :=
  match written with
  | [] => None
  | r' :: rest =>
      match written_ok db rows' r' with
      | Some e => Some e
      | None => first_error db rows' rest
      end
  end.

(** [update public.reports set ... where w returning *] for the
    requester [uid].  Rows outside the policy are skipped without an
    error; a written row that fails the policy check, or a constraint,
    aborts the statement. *)
Definition update_reports (db : database) (uid : option uuid)
    (w : report → bool) (set : report → report)
    : pg_error + (database * list report) :=
  let written := map set (List.filter (update_targets uid w) (reports db)) in
  if negb (forallb (reports_update_check uid) written) then inl rls_violation
  else
    let rows' := map (updated_row uid w set) (reports db) in
    match first_error db rows' written with
    | Some e => inl e
    | None => inr (with_reports db rows', written)
    end.

(** The filter [.eq('id', i)]. *)
Definition by_id (i : uuid) (r : report) : bool := bool_decide (id r = i).

End Pg.

Import Pg.

(** ** SQL functions and the view [user_stats] (supabase-schema.sql) *)

Module Sql.

(** [calculate_reward(fine integer) returns decimal]:
    [round(fine * 0.10, 2)], in hundredths. *)
Definition calculate_reward (fine : Z) : Z :=
  round_scale 2 (inject_Z fine * (10 # 100)).

(** [sum(...)]: NULL inputs are skipped, and the sum of no input is NULL. *)
Fixpoint sql_sum (vs : list (option Z)) : option Z :=
  match vs with
  | [] => None
  | None :: rest => sql_sum rest
  | Some v :: rest =>
      match sql_sum rest with
      | Some s => Some (v + s)
      | None => Some v
      end
  end.

(** [count(e)]: the number of inputs that are not NULL. *)
Definition sql_count {A : Type} (vs : list (option A)) : Z :=
  Z.of_nat (length (List.filter (λ v : option A, bool_decide (is_Some v)) vs)).

Definition coalesce (v : option Z) (d : Z) : Z :=
  match v with Some x => x | None => d end.

(** [profiles p left join reports r on p.id = r.user_id], for one [p]:
    the matching reports, or one row of NULLs when there is none. *)
Definition left_join (db : database) (p : uuid) : list (option report) :=
  match List.filter (λ r, bool_decide (user_id r = p)) (reports db) with
  | [] => [None]
  | rs => map Some rs
  end.

(** [case when r.status = s then 1 end] *)
Definition case_status (s : report_status) (r : option report) : option Z :=
  match r with
  | Some x => if bool_decide (status x = s) then Some 1 else None
  | None => None
  end.

(** [case when r.status = s then r.reward_amount else 0 end] *)
Definition case_reward (s : report_status) (r : option report) : option Z :=
  match r with
  | Some x => if bool_decide (status x = s) then reward_amount x else Some 0
  | None => Some 0
  end.

Record user_stats_row : Type := {
  total_reports : Z;
  approved_reports : Z;
  pending_reports : Z;
  rejected_reports : Z;
  total_earned : Z;          (* hundredths *)
  pending_earnings : Z;      (* hundredths *)
  success_rate : Z           (* tenths: round(..., 1) *)
}.

(** The row of the view [public.user_stats] for [user_id = p]; there is
    one for each profile.  The quotient of the success rate is taken
    exactly; PostgreSQL carries it to sixteen significant digits or more
    before the final [round(..., 1)]. *)
Definition user_stats (db : database) (p : uuid) : option user_stats_row :=
  if bool_decide (p ∈ profiles db) then
    let j := left_join db p in
    let total := sql_count (map (option_map id) j) in
    let n_approved := sql_count (map (case_status approved) j) in
    Some {| total_reports := total;
            approved_reports := n_approved;
            pending_reports := sql_count (map (case_status pending) j);
            rejected_reports := sql_count (map (case_status rejected) j);
            total_earned := coalesce (sql_sum (map (case_reward approved) j)) 0;
            pending_earnings :=
              coalesce (sql_sum (map (case_reward pending) j)) 0;
            success_rate :=
              round_scale 1
                (if 0 <? total
                 then inject_Z n_approved / inject_Z total * 100
                 else 0) |}
  else None.

Definition Qlt_bool (x y : Q) : bool := negb (Qle_bool y x).

(** [abs(c - p) < 0.001] for a [decimal(_, 8)] column [c]; a comparison
    with NULL is not true. *)
Definition within_tolerance (c : option Z) (p : option Q) : bool :=
  match c, p with
  | Some z, Some q => Qlt_bool (Qabs (decimal_value 8 z - q)) (1 # 1000)
  | _, _ => false
  end.

(** [check_duplicate_report(p_plate, p_lat, p_lng, p_violation_type)],
    run by the requester [uid] at time [now].  The function is not
    declared [security definer]: it reads [reports] through the policies
    of its caller.  A NULL [p_lat] or [p_lng] is [None]. *)
Definition check_duplicate_report (db : database) (uid : option uuid)
    (now : timestamp) (p_plate : string) (p_lat p_lng : option Q)
    (p_violation_type : string) : bool :=
  let existing_count :=
    length (select_reports db uid (λ r,
      bool_decide (plate_number r = Some p_plate)
      && bool_decide (violation_type r = p_violation_type)
      && (now - 2 * 60 * 60 * 1000 <? reported_at r)
      && (within_tolerance (latitude r) p_lat
          && within_tolerance (longitude r) p_lng))) in
  Nat.ltb 0 existing_count.

End Sql.

(** ** The supabase-js surface the helpers use *)

Module Supabase.

Inductive table : Type := tbl_violation_types | tbl_reports.

(** What a client call depends on besides the tables. *)
Record connection : Type := {
  session : option uuid;           (* the signed-in user: getUser(), auth.uid() *)
  clock : timestamp;               (* Date.now() and now() *)
  fresh_uuid : uuid;               (* the next uuid_generate_v4() *)
  fault : table → option pg_error  (* a request to this table fails so *)
}.

(** [{ data, error }] *)
Record response (A : Type) : Type := {
  data : option A;
  error : option pg_error
}.

Arguments data {A} _.
Arguments error {A} _.

Definition succeed {A : Type} (a : A) : response A :=
  {| data := Some a; error := None |}.

Definition fail {A : Type} (e : pg_error) : response A :=
  {| data := None; error := Some e |}.

(** [from('violation_types').select('fine').eq('id', k).single()] *)
Definition select_fine_single (db : database) (c : connection) (k : string)
    : response Z :=
  match fault c tbl_violation_types with
  | Some e => fail e
  | None =>
      match violation_types db !! k with
      | Some row => succeed (fine row)
      | None => fail no_single_row
      end
  end.

(** [from('reports').insert(p).select().single()] *)
Definition insert_single (db : database) (c : connection) (p : insert_payload)
    : database * response report :=
  match fault c tbl_reports with
  | Some e => (db, fail e)
  | None =>
      match insert_report db (session c) (clock c) (fresh_uuid c) p with
      | inl e => (db, fail e)
      | inr (db', r) => (db', succeed r)
      end
  end.

(** [.order('reported_at', { ascending: false })] *)
Definition newer_first (a b : report) : Prop := reported_at b ≤ reported_at a.

#[export] Instance newer_first_dec (a b : report) : Decision (newer_first a b).
Proof. unfold newer_first. apply _. Defined.

(** [from('reports').select(...).eq('user_id', u)
      .order('reported_at', { ascending: false }).limit(n)].  The
    embedded catalog columns [violation_types (label, icon, fine)] are
    left out of the rows: no helper modelled here reads them. *)
Definition select_user_reports (db : database) (c : connection) (u : uuid)
    (n : nat) : response (list report) :=
  match fault c tbl_reports with
  | Some e => fail e
  | None =>
      succeed
        (take n
           (merge_sort newer_first
              (select_reports db (session c)
                 (λ r, bool_decide (user_id r = u)))))
  end.

(** [from('reports').select('id').eq('plate_number', p)
      .eq('violation_type', k).gte('reported_at', t).limit(1)] *)
Definition select_duplicate_ids (db : database) (c : connection) (p : string)
    (k : string) (t : timestamp) : response (list uuid) :=
  match fault c tbl_reports with
  | Some e => fail e
  | None =>
      succeed
        (take 1
           (map id
              (select_reports db (session c) (λ r,
                 bool_decide (plate_number r = Some p)
                 && bool_decide (violation_type r = k)
                 && (t <=? reported_at r)))))
  end.

End Supabase.

Import Supabase.

(** ** Client helpers (lib/supabase.js) *)

Module Client.

(** A JavaScript value, for the properties a helper does not read. *)
Inductive js_value : Type :=
  | js_undefined
  | js_null
  | js_boolean (b : bool)
  | js_number (q : Q)
  | js_string (s : string).

(** The outcome of an [async] helper: a resolved value or a thrown
    [Error]. *)
Inductive js_result (A : Type) : Type :=
  | Returned (a : A)
  | Thrown (message : string).

Arguments Returned {A} _.
Arguments Thrown {A} _.

(** The object [createReport] destructures.  An absent (or [undefined])
    property is [None]; [others] holds every property the parameter
    pattern does not name. *)
Record createReport_args : Type := {
  violationType : string;
  latitude : option Q;
  longitude : option Q;
  locationText : option string;
  photoUrl : option string;
  plateNumber : option string;
  others : gmap string js_value
}.

Definition getUser (c : connection) : option uuid := session c.

(** [violationData?.fine || 115]: [||] takes its right operand when the
    left one is undefined or 0. *)
Definition or_default (v : option Z) (d : Z) : Z :=
  match v with
  | Some x => if x =? 0 then d else x
  | None => d
  end.

(** [fineAmount] of [createReport] *)
Definition resolve_fine (db : database) (c : connection) (k : string) : Z :=
  or_default (data (select_fine_single db c k)) 115.

(** [rewardAmount = fineAmount * 0.10] *)
Definition reward_of (fineAmount : Z) : Q := inject_Z fineAmount * (10 # 100).

(** The object passed to [insert] by [createReport]. *)
Definition report_payload (user : uuid) (fineAmount : Z)
    (a : createReport_args) : insert_payload :=
  {| ins_user_id := user;
     ins_violation_type := violationType a;
     ins_latitude := latitude a;
     ins_longitude := longitude a;
     ins_location_text := locationText a;
     ins_photo_url := photoUrl a;
     ins_plate_number := option_map toUpperCase (plateNumber a);
     ins_fine_amount := fineAmount;
     ins_reward_amount := reward_of fineAmount;
     ins_status := pending |}.

Definition createReport (db : database) (c : connection)
    (a : createReport_args) : js_result (database * response report) :=
  match getUser c with
  | None => Thrown "Not authenticated"
  | Some user =>
      let fineAmount := resolve_fine db c (violationType a) in
      Returned (insert_single db c (report_payload user fineAmount a))
  end.

Definition getUserReports (db : database) (c : connection) (userId : uuid)
    (limit : nat) : response (list report) :=
  select_user_reports db c userId limit.

(** [from('reports').select(...).eq('id', reportId).single()] *)
Definition getReportById (db : database) (c : connection) (reportId : uuid)
    : response report :=
  match fault c tbl_reports with
  | Some e => fail e
  | None =>
      match select_reports db (session c) (by_id reportId) with
      | [r] => succeed r
      | _ => fail no_single_row
      end
  end.

Record stats : Type := {
  total_reports : Z;
  approved_reports : Z;
  pending_reports : Z;
  rejected_reports : Z;
  total_earned : Q;
  pending_earnings : Q;
  success_rate : Z
}.

(** [reports.filter(r => r.status === s)] *)
Definition with_status (s : report_status) (rs : list report) : list report :=
  List.filter (λ r, bool_decide (status r = s)) rs.

(** [r.reward_amount || 0]: the column arrives as a JSON number, which is
    read as the nearest double. *)
Definition reward_or_zero (r : report) : Q :=
  match reward_amount r with
  | Some z => if z =? 0 then 0%Q else Double.round (decimal_value 2 z)
  | None => 0%Q
  end.

(** [rs.reduce((sum, r) => sum + (r.reward_amount || 0), 0)] *)
Definition sum_rewards (rs : list report) : Q :=
  fold_left (λ sum r, Double.add sum (reward_or_zero r)) rs 0%Q.

(** [calculateUserStats]; [None] is the [null] it returns when the
    reports could not be read. *)
Definition calculateUserStats (db : database) (c : connection)
    (userId : uuid) : option stats :=
  match data (getUserReports db c userId 1000) with
  | None => None
  | Some reports =>
      let approved := with_status Schema.approved reports in
      let pending := with_status Schema.pending reports in
      let rejected := with_status Schema.rejected reports in
      Some {| total_reports := Z.of_nat (length reports);
              approved_reports := Z.of_nat (length approved);
              pending_reports := Z.of_nat (length pending);
              rejected_reports := Z.of_nat (length rejected);
              total_earned := sum_rewards approved;
              pending_earnings := sum_rewards pending;
              success_rate :=
                if Nat.ltb 0 (length reports)
                then Math_round
                       (Double.mul
                          (Double.div (inject_Z (Z.of_nat (length approved)))
                             (inject_Z (Z.of_nat (length reports))))
                          100)
                else 0 |}
  end.

(** [{ isDuplicate, error }]; [isDuplicate] is [None] for JavaScript's
    [null], which [data && ...] yields for a null [data]. *)
Record duplicate_check : Type := {
  isDuplicate : option bool;
  error : option pg_error
}.

Definition checkDuplicate (db : database) (c : connection)
    (plateNumber : string) (latitude longitude : option Q)
    (violationType : string) : duplicate_check :=
  let twoHoursAgo := clock c - 2 * 60 * 60 * 1000 in
  let r := select_duplicate_ids db c (toUpperCase plateNumber)
             violationType twoHoursAgo in
  match Supabase.error r with
  | Some e => {| isDuplicate := Some false; error := Some e |}
  | None =>
      {| isDuplicate :=
           match data r with
           | Some ids => Some (Nat.ltb 0 (length ids))
           | None => None
           end;
         error := None |}
  end.

End Client.

(** ** Reference definitions the properties are stated against *)

Module Reference.

(** The reports of one identity. *)
Definition reports_of (db : database) (p : uuid) : list report :=
  List.filter (λ r, bool_decide (user_id r = p)) (reports db).

(** The number of rows in a given status. *)
Definition count_status (s : report_status) (rows : list report) : Z :=
  Z.of_nat (length (List.filter (λ r, bool_decide (status r = s)) rows)).

(** Rows whose rewards are whole multiples of 0.50 that fit
    [decimal(10, 2)], as the tenth of a fine that is a multiple of 5 is:
    such amounts, and their sums, are doubles. *)
Definition half_units (rows : list report) : bool :=
  forallb (λ r, match reward_amount r with
                | Some z => (z mod 50 =? 0) && fits_precision 10 z
                | None => true
                end) rows.

(** The sum, in hundredths, of the rewards of the rows in a given status;
    it is zero when there is none. *)
Fixpoint sum_reward (s : report_status) (rows : list report) : Z :=
  match rows with
  | [] => 0
  | r :: rest =>
      (if bool_decide (status r = s) then default 0 (reward_amount r) else 0)
      + sum_reward s rest
  end.

(** The near-duplicate condition in the words of the specification: a row
    with the same upper-cased plate and the same violation kind, submitted
    within the last two hours and, when a geolocation is supplied, within
    0.001 degrees of it in each axis. *)
Definition within_degrees (c : option Z) (q : Q) : bool :=
  match c with
  | Some z => Qle_bool (Qabs (decimal_value 8 z - q)) (1 # 1000)
  | None => false
  end.

Definition near_duplicate_spec (rows : list report) (now : timestamp)
    (plate : string) (lat lng : option Q) (kind : string) : bool :=
  existsb (λ r,
    bool_decide (option_map toUpperCase (plate_number r)
                 = Some (toUpperCase plate))
    && bool_decide (violation_type r = kind)
    && (now - 2 * 60 * 60 * 1000 <=? reported_at r)
    && match lat, lng with
       | Some la, Some lo =>
           within_degrees (latitude r) la && within_degrees (longitude r) lo
       | _, _ => true
       end) rows.

(** A report is reachable for an owner update when the statement neither
    skips it silently nor is refused as a policy violation. *)
Definition policy_admits (db : database) (uid : option uuid) (r : report)
    (set : report → report) : Prop :=
  update_reports db uid (by_id (id r)) set ≠ inr (db, [])
  ∧ update_reports db uid (by_id (id r)) set ≠ inl rls_violation.

(** The table without the rows of one owner. *)
Definition without_owner (b : uuid) (db : database) : database :=
  with_reports db
    (List.filter (λ r, negb (bool_decide (user_id r = b))) (reports db)).

(** The argument object with one more property that [createReport] does
    not name. *)
Definition with_extra_property (k : string) (v : Client.js_value)
    (a : Client.createReport_args) : Client.createReport_args :=
  {| Client.violationType := Client.violationType a;
     Client.latitude := Client.latitude a;
     Client.longitude := Client.longitude a;
     Client.locationText := Client.locationText a;
     Client.photoUrl := Client.photoUrl a;
     Client.plateNumber := Client.plateNumber a;
     Client.others := <[k := v]> (Client.others a) |}.

End Reference.

Import Reference.

(** ** Concrete tables used in the examples *)

Module Scenario.

Definition alice : uuid := 1%N.
Definition bob : uuid := 2%N.

Definition online (u : uuid) (t : timestamp) (i : uuid) : connection :=
  {| session := Some u; clock := t; fresh_uuid := i; fault := λ _, None |}.

Definition offline (u : uuid) (t : timestamp) (i : uuid) : connection :=
  {| session := Some u; clock := t; fresh_uuid := i;
     fault := λ _, Some transport_failure |}.

Definition empty_db : database :=
  {| profiles := {[ alice; bob ]};
     violation_types := seed_violation_types;
     reports := [] |}.

(** A catalog with a kind that carries no fine. *)
Definition warning_db : database :=
  with_violation_types empty_db
    (<["warning" := {| label := "Warning"; fine := 0; icon := "!";
                       description := None |}]> seed_violation_types).

Definition submission (kind : string) (plate : option string)
    : Client.createReport_args :=
  {| Client.violationType := kind;
     Client.latitude := Some (407 # 10);
     Client.longitude := Some (- 74 # 1);
     Client.locationText := Some "Brooklyn, NY";
     Client.photoUrl := None;
     Client.plateNumber := plate;
     Client.others := ∅ |}.

Definition row (i u : uuid) (kind : string) (plate : string)
    (s : report_status) (f reward : Z) (t : timestamp) : report :=
  {| id := i; user_id := u; violation_type := kind;
     latitude := Some 4070000000; longitude := Some (-7400000000);
     location_text := Some "Brooklyn, NY"; photo_url := None;
     plate_number := Some plate; status := s; rejection_reason := None;
     fine_amount := Some f; reward_amount := Some reward;
     paid_out := false; paid_out_at := None;
     reported_at := t; reviewed_at := None;
     created_at := t; updated_at := t |}.

(** Alice's report of a bike-lane violation, filed at time 0. *)
Definition bike_report : report :=
  row 10%N alice "bike" "ABC-1234" pending 175 1750 0.

Definition one_report_db : database := with_reports empty_db [bike_report].

(** Bob's report next to Alice's. *)
Definition bob_report : report :=
  row 11%N bob "hydrant" "XYZ-5678" pending 115 1150 0.

Definition two_owner_db : database :=
  with_reports empty_db [bike_report; bob_report].

(** One approved, one pending and one rejected report of Alice. *)
Definition three_report_db : database :=
  with_reports empty_db
    [ row 20%N alice "bike" "ABC-1234" approved 175 1750 300;
      row 21%N alice "hydrant" "XYZ-5678" pending 115 1150 200;
      row 22%N alice "crosswalk" "JKL-7890" rejected 115 0 100 ].



(** [set status = 'approved'] *)
Definition approve (r : report) : report :=
  {| id := id r; user_id := user_id r; violation_type := violation_type r;
     latitude := latitude r; longitude := longitude r;
     location_text := location_text r; photo_url := photo_url r;
     plate_number := plate_number r; status := approved;
     rejection_reason := rejection_reason r;
     fine_amount := fine_amount r; reward_amount := reward_amount r;
     paid_out := paid_out r; paid_out_at := paid_out_at r;
     reported_at := reported_at r; reviewed_at := reviewed_at r;
     created_at := created_at r; updated_at := updated_at r |}.

(** [set plate_number = p] *)
Definition set_plate (p : string) (r : report) : report :=
  {| id := id r; user_id := user_id r; violation_type := violation_type r;
     latitude := latitude r; longitude := longitude r;
     location_text := location_text r; photo_url := photo_url r;
     plate_number := Some p; status := status r;
     rejection_reason := rejection_reason r;
     fine_amount := fine_amount r; reward_amount := reward_amount r;
     paid_out := paid_out r; paid_out_at := paid_out_at r;
     reported_at := reported_at r; reviewed_at := reviewed_at r;
     created_at := created_at r; updated_at := updated_at r |}.

(** What Alice's submission of plate "abc-1234" for kind "bike" at time
    1000 stores. *)
Definition created_row : report :=
  row 100%N alice "bike" "ABC-1234" pending 175 1750 1000.

Definition created_db : database := with_reports empty_db [created_row].

(** Ten minutes after [bike_report] was filed. *)
Definition ten_minutes_later : connection := online alice 600000 0%N.

End Scenario.

(** ** Profiles (supabase-schema.sql, lib/supabase.js) *)

Module AuthUsers.

(** A row of [auth.users], as far as the trigger reads it;
    [raw_user_meta_data] is a JSON object of strings. *)
Record row : Type := {
  id : uuid;
  email : option string;
  raw_user_meta_data : gmap string string
}.

End AuthUsers.

Module Profiles.

(** [public.profiles], keyed by its primary key [id]. *)
Record profile : Type := {
  email : option string;
  full_name : option string;
  phone : option string;
  bank_last4 : option string;
  payout_method : option string;
  notifications_report_updates : option bool;
  notifications_payment_received : option bool;
  notifications_weekly_digest : option bool;
  notifications_new_features : option bool;
  created_at : timestamp;
  updated_at : timestamp
}.

#[export] Instance profile_eq_dec : EqDecision profile.
Proof. solve_decision. Defined.

Record accounts : Type := {
  auth_users : gmap uuid AuthUsers.row;
  profiles : gmap uuid profile
}.

(** The row [handle_new_user] inserts: [id], [email] and [full_name] from
    the new user, every other column from its default. *)
Definition new_profile (now : timestamp) (new : AuthUsers.row) : profile :=
  {| email := AuthUsers.email new;
     full_name := AuthUsers.raw_user_meta_data new !! "full_name";
     phone := None;
     bank_last4 := None;
     payout_method := Some "Direct Deposit";
     notifications_report_updates := Some true;
     notifications_payment_received := Some true;
     notifications_weekly_digest := Some false;
     notifications_new_features := Some true;
     created_at := now;
     updated_at := now |}.

(** [public.handle_new_user()]: a [security definer] function, so no
    policy applies; the primary key refuses a second row for an id. *)
Definition handle_new_user (now : timestamp) (new : AuthUsers.row)
    (tbl : gmap uuid profile) : pg_error + gmap uuid profile :=
  match tbl !! AuthUsers.id new with
  | Some _ => inl unique_violation
  | None => inr (<[AuthUsers.id new := new_profile now new]> tbl)
  end.

(** An insert into [auth.users] with the trigger [on_auth_user_created]:
    an error of the trigger function aborts the insert. *)
Definition insert_auth_user (now : timestamp) (new : AuthUsers.row)
    (st : accounts) : pg_error + accounts :=
  match auth_users st !! AuthUsers.id new with
  | Some _ => inl unique_violation
  | None =>
      match handle_new_user now new (profiles st) with
      | inl e => inl e
      | inr tbl =>
          inr {| auth_users := <[AuthUsers.id new := new]> (auth_users st);
                 profiles := tbl |}
      end
  end.

(** ["Users can view own profile"]: [using (auth.uid() = id)]. *)
Definition profiles_select_using (uid : option uuid) (i : uuid) : bool :=
  bool_decide (uid = Some i).

(** ["Users can update own profile"]: [using (auth.uid() = id)], applied
    to the updated row as well. *)
Definition profiles_update_using (uid : option uuid) (i : uuid) : bool :=
  bool_decide (uid = Some i).

(** The object passed to [update]: an absent property is [None]; for a
    nullable column [Some None] is the JavaScript [null]. *)
Record profile_updates : Type := {
  upd_id : option uuid;
  upd_email : option (option string);
  upd_full_name : option (option string);
  upd_phone : option (option string);
  upd_bank_last4 : option (option string);
  upd_payout_method : option (option string);
  upd_notifications_report_updates : option (option bool);
  upd_notifications_payment_received : option (option bool);
  upd_notifications_weekly_digest : option (option bool);
  upd_notifications_new_features : option (option bool);
  upd_created_at : option timestamp;
  upd_updated_at : option timestamp
}.

(** [{ ...updates, updated_at: new Date().toISOString() }] *)
Definition stamped (now : timestamp) (u : profile_updates) : profile_updates :=
  {| upd_id := upd_id u;
     upd_email := upd_email u;
     upd_full_name := upd_full_name u;
     upd_phone := upd_phone u;
     upd_bank_last4 := upd_bank_last4 u;
     upd_payout_method := upd_payout_method u;
     upd_notifications_report_updates := upd_notifications_report_updates u;
     upd_notifications_payment_received :=
       upd_notifications_payment_received u;
     upd_notifications_weekly_digest := upd_notifications_weekly_digest u;
     upd_notifications_new_features := upd_notifications_new_features u;
     upd_created_at := upd_created_at u;
     upd_updated_at := Some now |}.

(** [set] of the named columns. *)
Definition apply_updates (u : profile_updates) (p : profile) : profile :=
  {| email := default (email p) (upd_email u);
     full_name := default (full_name p) (upd_full_name u);
     phone := default (phone p) (upd_phone u);
     bank_last4 := default (bank_last4 p) (upd_bank_last4 u);
     payout_method := default (payout_method p) (upd_payout_method u);
     notifications_report_updates :=
       default (notifications_report_updates p)
         (upd_notifications_report_updates u);
     notifications_payment_received :=
       default (notifications_payment_received p)
         (upd_notifications_payment_received u);
     notifications_weekly_digest :=
       default (notifications_weekly_digest p)
         (upd_notifications_weekly_digest u);
     notifications_new_features :=
       default (notifications_new_features p)
         (upd_notifications_new_features u);
     created_at := default (created_at p) (upd_created_at u);
     updated_at := default (updated_at p) (upd_updated_at u) |}.

(** [getProfile]: [from('profiles').select('*').eq('id', userId).single()].
    [down] is the failure of the request, if any. *)
Definition getProfile (st : accounts) (c : connection)
    (down : option pg_error) (userId : uuid) : response (uuid * profile) :=
  match down with
  | Some e => fail e
  | None =>
      match profiles st !! userId with
      | Some p =>
          if profiles_select_using (session c) userId
          then succeed (userId, p)
          else fail no_single_row
      | None => fail no_single_row
      end
  end.

(** [updateProfile]: [from('profiles').update(...).eq('id', userId)
    .select().single()].  A row outside the policy is not updated, and
    [single()] then reports that there is no row. *)
Definition updateProfile (st : accounts) (c : connection)
    (down : option pg_error) (userId : uuid) (updates : profile_updates)
    : accounts * response (uuid * profile) :=
  let patch := stamped (clock c) updates in
  match down with
  | Some e => (st, fail e)
  | None =>
      match profiles st !! userId with
      | Some p =>
          if profiles_select_using (session c) userId
             && profiles_update_using (session c) userId
          then
            let new_id := default userId (upd_id patch) in
            let p' := apply_updates patch p in
            if negb (profiles_update_using (session c) new_id)
            then (st, fail rls_violation)
            else
              ({| auth_users := auth_users st;
                  profiles := <[new_id := p']> (delete userId (profiles st)) |},
               succeed (new_id, p'))
          else (st, fail no_single_row)
      | None => (st, fail no_single_row)
      end
  end.

(** No update at all. *)
Definition no_updates : profile_updates :=
  {| upd_id := None; upd_email := None; upd_full_name := None;
     upd_phone := None; upd_bank_last4 := None; upd_payout_method := None;
     upd_notifications_report_updates := None;
     upd_notifications_payment_received := None;
     upd_notifications_weekly_digest := None;
     upd_notifications_new_features := None;
     upd_created_at := None; upd_updated_at := None |}.

End Profiles.

(** ** The catalog as the client reads it (lib/supabase.js) *)

Section CatalogOrder.

(** The order of [label] under the collation of the database. *)
Context (label_le : relation string) `{!∀ a b, Decision (label_le a b)}.

Definition by_label (a b : string * violation_type_row) : Prop :=
  label_le (label a.2) (label b.2).

#[local] Instance by_label_dec (a b : string * violation_type_row) :
  Decision (by_label a b).
Proof. unfold by_label. apply _. Defined.

(** [getViolationTypes]: [from('violation_types').select('*')
    .order('label')], each row with its [id].  The policy of the table is
    [using (true)]: the rows do not depend on the session. *)
Definition getViolationTypes (db : database) (c : connection)
    : response (list (string * violation_type_row)) :=
  match fault c tbl_violation_types with
  | Some e => fail e
  | None => succeed (merge_sort by_label (map_to_list (violation_types db)))
  end.

End CatalogOrder.

(** ** Photo upload (lib/supabase.js) *)

Module Storage.

Import Stdlib.Strings.Ascii.

Inductive storage_error : Type :=
  | already_exists      (* an object is stored under the path *)
  | storage_failure.    (* the request was refused or did not arrive *)

(** A [File]: its name and its bytes. *)
Record file : Type := {
  name : string;
  content : string
}.

(** [String.prototype.split] with a separator of one character. *)
Fixpoint split (sep : Ascii.ascii) (s : string) : list string :=
  match s with
  | EmptyString => [EmptyString]
  | String ch s' =>
      if bool_decide (ch = sep) then EmptyString :: split sep s'
      else match split sep s' with
           | h :: t => String ch h :: t
           | [] => [String ch EmptyString]
           end
  end.

(** [Array.prototype.pop]: the last element, [undefined] for no element. *)
Definition pop (l : list string) : option string := last l.

(** A value inside a template literal. *)
Definition interpolate (v : option string) : string :=
  default "undefined" v.

(** [file.name.split('.').pop()] *)
Definition fileExt (f : file) : option string :=
  pop (split "."%char (name f)).

(** [`${userId}/${Date.now()}.${fileExt}`] *)
Definition fileName (userId : string) (now : timestamp) (f : file) : string :=
  userId +:+ "/" +:+ pretty now +:+ "." +:+ interpolate (fileExt f).

(** [storage.from('violation-photos').upload(path, file)]: without the
    [upsert] option an object already stored is not replaced. *)
Definition upload (b : gmap string string) (down : option storage_error)
    (path : string) (f : file) : gmap string string * (storage_error + string) :=
  match down with
  | Some e => (b, inl e)
  | None =>
      match b !! path with
      | Some _ => (b, inl already_exists)
      | None => (<[path := content f]> b, inr path)
      end
  end.

(** [{ data: { path, url }, error }] *)
Record upload_result : Type := {
  data : option (string * string);
  error : option storage_error
}.

Section PublicUrl.

(** [storage.from('violation-photos').getPublicUrl(path).data.publicUrl] *)
Variable getPublicUrl : string → string.

Definition uploadPhoto (b : gmap string string) (now : timestamp)
    (down : option storage_error) (f : file) (userId : string)
    : gmap string string * upload_result :=
  match upload b down (fileName userId now f) f with
  | (b', inl e) => (b', {| data := None; error := Some e |})
  | (b', inr path) =>
      (b', {| data := Some (path, getPublicUrl (fileName userId now f));
              error := None |})
  end.

End PublicUrl.

(** The characters that separate the parts of a path. *)
Definition dot : ascii := "."%char.
Definition slash : ascii := "/"%char.
Definition dash : ascii := "-"%char.

(** A string without a given character. *)
Fixpoint free_of (ch : Ascii.ascii) (s : string) : Prop :=
  match s with
  | EmptyString => True
  | String x s' => x ≠ ch ∧ free_of ch s'
  end.

End Storage.

(** ** The page (app/page.js) *)

Module Page.

(** An entry of the state [violations]. *)
Record violation : Type := {
  id : string;
  label : string;
  fine : Z;
  icon : string;
  description : string
}.

(** [defaultViolations], the list used until the catalog is loaded. *)
Definition defaultViolations : list violation := [
  {| id := "hydrant"; label := "Fire Hydrant"; fine := 115; icon := "🚒";
     description := "Within 15ft of hydrant" |};
  {| id := "double"; label := "Double Parked"; fine := 115; icon := "🚗";
     description := "Blocking travel lane" |};
  {| id := "bike"; label := "Bike Lane"; fine := 175; icon := "🚲";
     description := "Blocking bicycle lane" |};
  {| id := "bus"; label := "Bus Stop/Lane"; fine := 175; icon := "🚌";
     description := "In bus zone or lane" |};
  {| id := "crosswalk"; label := "Crosswalk"; fine := 115; icon := "🚶";
     description := "Blocking pedestrian crossing" |};
  {| id := "sidewalk"; label := "Sidewalk"; fine := 115; icon := "♿";
     description := "On sidewalk/ramp" |}
].

(** [Number.prototype.toFixed(2)]: the sign of the number, then the
    nearest count of hundredths of its size, ties taking the larger,
    written with two decimals. *)
Definition toFixed2 (x : Q) : string :=
  let n := Qfloor (Qabs x * 100 + (1 # 2)) in
  (if Qle_bool 0 x then "" else "-")
  +:+ pretty (n / 100) +:+ "."
  +:+ pretty (n mod 100 / 10) +:+ pretty (n mod 10).

(** [violations.find(v => v.id === selectedViolation)] *)
Definition selectedViolationData (violations : list violation)
    (selectedViolation : option string) : option violation :=
  List.find (λ v, bool_decide (Some (id v) = selectedViolation)) violations.

(** [estimatedReward] *)
Definition estimatedReward (violations : list violation)
    (selectedViolation : option string) : string :=
  match selectedViolationData violations selectedViolation with
  | Some v => toFixed2 (inject_Z (fine v) * (10 # 100))
  | None => "0.00"
  end.

(** [{ lat, lng }] *)
Record position : Type := {
  lat : Q;
  lng : Q
}.

(** The state of the component that [handleSubmit] reads or writes. *)
Record view : Type := {
  user : option uuid;
  selectedViolation : option string;
  uploadedFile : option Storage.file;
  plateNumber : string;
  location : option position;
  isSubmitting : bool;
  showSuccess : bool
}.

(** What the calls of the page act on. *)
Record world : Type := {
  tables : database;
  photos : gmap string string
}.

(** [alert('Error submitting report: ' + error.message)], for an error
    thrown or returned by [createReport]. *)
Inductive notice : Type :=
  | thrown (message : string)
  | returned (e : pg_error).

Definition settled (v : view) (success : bool) : view :=
  {| user := user v;
     selectedViolation := selectedViolation v;
     uploadedFile := uploadedFile v;
     plateNumber := plateNumber v;
     location := location v;
     isSubmitting := false;
     showSuccess := if success then true else showSuccess v |}.

Section Submit.

(** The public URL of a path, and the text of a user id. *)
Variable getPublicUrl : string → string.
Variable uuid_text : uuid → string.

(** The argument of [createReport] in [handleSubmit]. *)
Definition submitted (v : view) (kind : string) (photoUrl : option string)
    : Client.createReport_args :=
  {| Client.violationType := kind;
     Client.latitude := option_map lat (location v);
     Client.longitude := option_map lng (location v);
     Client.locationText := Some "Brooklyn, NY";
     Client.photoUrl := photoUrl;
     Client.plateNumber := Some (plateNumber v);
     Client.others := ∅ |}.

(** [handleSubmit], up to the timer it starts on success.  [down] is the
    failure of the upload request, if any.  A null user, a null or empty
    kind, or a null file makes it return at once. *)
Definition handleSubmit (w : world) (c : connection)
    (down : option Storage.storage_error) (v : view)
    : world * view * option notice :=
  match user v, selectedViolation v, uploadedFile v with
  | Some u, Some kind, Some file =>
      if bool_decide (kind = "") then (w, v, None)
      else
        let up := Storage.uploadPhoto getPublicUrl (photos w) (clock c) down
                    file (uuid_text u) in
        let photoUrl :=
          match Storage.error (snd up) with
          | Some _ => None
          | None => option_map snd (Storage.data (snd up))
          end in
        match Client.createReport (tables w) c (submitted v kind photoUrl) with
        | Client.Thrown message =>
            ({| tables := tables w; photos := fst up |},
             settled v false, Some (thrown message))
        | Client.Returned (db', resp) =>
            match Supabase.error resp with
            | Some e =>
                ({| tables := db'; photos := fst up |},
                 settled v false, Some (returned e))
            | None =>
                ({| tables := db'; photos := fst up |},
                 settled v true, None)
            end
        end
  | _, _, _ => (w, v, None)
  end.

End Submit.

End Page.

(** ** Consistency of the tables *)

Module Invariant.

(** The constraints [public.reports] declares: the primary key [id] and
    the references to [profiles] and [violation_types]. *)
Definition well_formed (db : database) : Prop :=
  NoDup (map id (reports db))
  ∧ ∀ r, In r (reports db) → foreign_keys_ok db r = true.

(** A coordinate, when present, lies within [bound] degrees of zero. *)
Definition within_bound (bound : Z) (v : option Q) : Prop :=
  match v with
  | Some q => (inject_Z (- bound) <= q)%Q ∧ (q <= inject_Z bound)%Q
  | None => True
  end.

(** The numeric columns of a row are within the range of their types. *)
Definition fits_columns (r : report) : Prop :=
  (∀ z, latitude r = Some z → fits_precision 10 z = true)
  ∧ (∀ z, longitude r = Some z → fits_precision 11 z = true)
  ∧ (∀ z, fine_amount r = Some z → fits_int4 z = true)
  ∧ (∀ z, reward_amount r = Some z → fits_precision 10 z = true).

End Invariant.

Import Invariant.

(** ** Letter case *)

Module Letters.

(** The ASCII letters [a] to [z]. *)
Definition is_lower (ch : Ascii.ascii) : bool :=
  let n := Ascii.N_of_ascii ch in ((97 <=? n) && (n <=? 122))%N.

Fixpoint has_lower (s : string) : bool :=
  match s with
  | EmptyString => false
  | String ch s' => is_lower ch || has_lower s'
  end.

End Letters.

Import Letters.

(** ** Summaries without reports *)

Module Zero.

Definition view_row : Sql.user_stats_row :=
  {| Sql.total_reports := 0; Sql.approved_reports := 0;
     Sql.pending_reports := 0; Sql.rejected_reports := 0;
     Sql.total_earned := 0; Sql.pending_earnings := 0;
     Sql.success_rate := 0 |}.

Definition client_stats : Client.stats :=
  {| Client.total_reports := 0; Client.approved_reports := 0;
     Client.pending_reports := 0; Client.rejected_reports := 0;
     Client.total_earned := 0%Q; Client.pending_earnings := 0%Q;
     Client.success_rate := 0 |}.

End Zero.

(** ** Further concrete cases *)

Module Cases.

Import Scenario.

(** A client whose requests to the catalog fail and whose requests to
    [reports] go through. *)
Definition catalog_down (u : uuid) (t : timestamp) (i : uuid) : connection :=
  {| session := Some u; clock := t; fresh_uuid := i;
     fault := λ tb, match tb with
                    | tbl_violation_types => Some transport_failure
                    | tbl_reports => None
                    end |}.

(** What a submission for kind "bike" stores when the catalog cannot be
    read. *)
Definition fallback_row : report :=
  row 100%N alice "bike" "ABC-1234" pending 115 1150 1000.

Definition fallback_db : database := with_reports empty_db [fallback_row].

(** [set reward_amount = z] *)
Definition set_reward (z : Z) (r : report) : report :=
  {| id := id r; user_id := user_id r; violation_type := violation_type r;
     latitude := latitude r; longitude := longitude r;
     location_text := location_text r; photo_url := photo_url r;
     plate_number := plate_number r; status := status r;
     rejection_reason := rejection_reason r;
     fine_amount := fine_amount r; reward_amount := Some z;
     paid_out := paid_out r; paid_out_at := paid_out_at r;
     reported_at := reported_at r; reviewed_at := reviewed_at r;
     created_at := created_at r; updated_at := updated_at r |}.

(** The order of labels by character code, as one collation. *)
Definition code_order (a b : string) : Prop := String.leb a b = true.

#[export] Instance code_order_dec (a b : string) : Decision (code_order a b).
Proof. unfold code_order. apply _. Defined.

(** A page ready to submit, and the same without a photo chosen. *)
Definition jpeg : Storage.file :=
  {| Storage.name := "IMG_0042.jpeg"; Storage.content := "bytes" |}.

Definition ready_view : Page.view :=
  {| Page.user := Some alice;
     Page.selectedViolation := Some "bike";
     Page.uploadedFile := Some jpeg;
     Page.plateNumber := "abc-1234";
     Page.location := None;
     Page.isSubmitting := false;
     Page.showSuccess := false |}.

Definition fileless_view : Page.view :=
  {| Page.user := Some alice;
     Page.selectedViolation := Some "bike";
     Page.uploadedFile := None;
     Page.plateNumber := "abc-1234";
     Page.location := None;
     Page.isSubmitting := false;
     Page.showSuccess := false |}.

Definition start_world : Page.world :=
  {| Page.tables := empty_db; Page.photos := ∅ |}.

Definition public_url (path : string) : string :=
  "https://project.supabase.co/storage/v1/object/public/violation-photos/"
  +:+ path.

Definition uuid_text (u : uuid) : string := pretty u.

(** The report of [ready_view] submitted at time 1000 while the storage
    is down. *)
Definition photoless_row : report :=
  {| id := 100%N; user_id := alice; violation_type := "bike";
     latitude := None; longitude := None;
     location_text := Some "Brooklyn, NY"; photo_url := None;
     plate_number := Some "ABC-1234"; status := pending;
     rejection_reason := None;
     fine_amount := Some 175; reward_amount := Some 1750;
     paid_out := false; paid_out_at := None;
     reported_at := 1000; reviewed_at := None;
     created_at := 1000; updated_at := 1000 |}.

(** A user signing up with a display name, and the accounts before. *)
Definition carol : uuid := 3%N.

Definition carol_signup : AuthUsers.row :=
  {| AuthUsers.id := carol;
     AuthUsers.email := Some "carol@example.org";
     AuthUsers.raw_user_meta_data := {[ "full_name" := "Carol" ]} |}.

Definition no_accounts : Profiles.accounts :=
  {| Profiles.auth_users := ∅; Profiles.profiles := ∅ |}.

Definition carol_accounts : Profiles.accounts :=
  {| Profiles.auth_users := {[ carol := carol_signup ]};
     Profiles.profiles := {[ carol := Profiles.new_profile 500 carol_signup ]} |}.

(** [{ phone: '555-0100', updated_at: <time 1> }] *)
Definition phone_update : Profiles.profile_updates :=
  {| Profiles.upd_id := None; Profiles.upd_email := None;
     Profiles.upd_full_name := None;
     Profiles.upd_phone := Some (Some "555-0100");
     Profiles.upd_bank_last4 := None; Profiles.upd_payout_method := None;
     Profiles.upd_notifications_report_updates := None;
     Profiles.upd_notifications_payment_received := None;
     Profiles.upd_notifications_weekly_digest := None;
     Profiles.upd_notifications_new_features := None;
     Profiles.upd_created_at := None; Profiles.upd_updated_at := Some 1 |}.

End Cases.

Import Cases.

(** * Properties *)

Import Scenario.

(** ** Rounding *)

Lemma round_half_away_proper (q q' : Q) :
  q == q' → round_half_away q = round_half_away q'.
Proof.
  intros H. unfold round_half_away.
  assert (E : Qle_bool 0 q = Qle_bool 0 q') by (rewrite H; reflexivity).
  rewrite E. destruct (Qle_bool 0 q').
  - apply Qfloor_comp. rewrite H. reflexivity.
  - apply Qceiling_comp. rewrite H. reflexivity.
Qed.

Lemma round_half_away_inject_Z (n : Z) : round_half_away (inject_Z n) = n.
Proof.
  unfold round_half_away.
  destruct (Qle_bool 0 (inject_Z n)).
  - unfold Qfloor, Qplus, inject_Z; simpl.
    symmetry. apply Z.div_unique with (r := 1); lia.
  - unfold Qceiling, Qfloor, Qminus, Qplus, Qopp, inject_Z; simpl.
    change (Z.pos (1 * 2)) with 2.
    replace (- (n * 2 + - (1) * 1)) with (- n * 2 + 1) by lia.
    rewrite <- (Z.div_unique (- n * 2 + 1) 2 (- n) 1) by lia. lia.
Qed.

(** Ten percent of an integer fine is a whole number of hundredths. *)
Lemma calculate_reward_exact (f : Z) : Sql.calculate_reward f = 10 * f.
Proof.
  unfold Sql.calculate_reward, round_scale.
  rewrite <- (round_half_away_inject_Z (10 * f)).
  apply round_half_away_proper.
  rewrite inject_Z_mult. change (10 ^ Z.of_nat 2) with 100.
  unfold Qeq, Qmult, inject_Z; simpl. lia.
Qed.

Lemma reward_of_rounds (f : Z) :
  round_scale 2 (Client.reward_of f) = Sql.calculate_reward f.
Proof. reflexivity. Qed.

(** ** Inversion of a successful submission *)

Lemma build_row_Some (now : timestamp) (i : uuid) (p : insert_payload)
    (r : report) :
  build_row now i p = Some r →
  id r = i ∧ user_id r = ins_user_id p
  ∧ violation_type r = ins_violation_type p
  ∧ plate_number r = ins_plate_number p
  ∧ status r = ins_status p
  ∧ fine_amount r = Some (ins_fine_amount p)
  ∧ reward_amount r = Some (round_scale 2 (ins_reward_amount p))
  ∧ reported_at r = now.
Proof.
  unfold build_row, to_decimal.
  destruct (coerce_decimal 10 8 (ins_latitude p)); [|discriminate].
  destruct (coerce_decimal 11 8 (ins_longitude p)); [|discriminate].
  destruct (fits_precision 10 (round_scale 2 (ins_reward_amount p)));
    [|discriminate].
  destruct (fits_int4 (ins_fine_amount p)); [|discriminate].
  intros [= <-]. simpl. repeat split; reflexivity.
Qed.

Lemma insert_report_inr (db db' : database) (uid : option uuid)
    (now : timestamp) (i : uuid) (p : insert_payload) (r : report) :
  insert_report db uid now i p = inr (db', r) →
  build_row now i p = Some r
  ∧ uid = Some (user_id r)
  ∧ count_id (reports db) i = 0%nat
  ∧ foreign_keys_ok db r = true
  ∧ db' = with_reports db (reports db ++ [r]).
Proof.
  unfold insert_report.
  destruct (build_row now i p) as [r0|]; [|discriminate].
  unfold reports_insert_check.
  destruct (bool_decide (uid = Some (user_id r0))) eqn:Hu; simpl;
    [|discriminate].
  destruct (Nat.eqb (count_id (reports db) i) 0) eqn:Hc; simpl;
    [|discriminate].
  destruct (foreign_keys_ok db r0) eqn:Hf; simpl; [|discriminate].
  intros [= <- <-].
  apply bool_decide_eq_true in Hu. apply Nat.eqb_eq in Hc.
  repeat split; assumption.
Qed.

Lemma insert_single_cases (db : database) (c : connection)
    (p : insert_payload) :
  (∃ e, insert_single db c p = (db, fail e))
  ∨ (∃ db' r, insert_single db c p = (db', succeed r)
       ∧ insert_report db (session c) (clock c) (fresh_uuid c) p
         = inr (db', r)).
Proof.
  unfold insert_single.
  destruct (fault c tbl_reports) as [e|]; [left; eauto|].
  destruct (insert_report db (session c) (clock c) (fresh_uuid c) p)
    as [e|[db' r]]; [left; eauto|right; eauto].
Qed.

Lemma createReport_Returned (db db' : database) (c : connection)
    (a : Client.createReport_args) (resp : response report) :
  Client.createReport db c a = Client.Returned (db', resp) →
  ∃ u, session c = Some u
    ∧ insert_single db c
        (Client.report_payload u
           (Client.resolve_fine db c (Client.violationType a)) a)
      = (db', resp).
Proof.
  unfold Client.createReport, Client.getUser.
  destruct (session c) as [u|]; [|discriminate].
  intros [= H]. exists u. split; [reflexivity|exact H].
Qed.

Lemma createReport_created (db db' : database) (c : connection)
    (a : Client.createReport_args) (resp : response report) (r : report) :
  Client.createReport db c a = Client.Returned (db', resp) →
  data resp = Some r →
  ∃ u, session c = Some u
    ∧ resp = succeed r
    ∧ insert_report db (Some u) (clock c) (fresh_uuid c)
        (Client.report_payload u
           (Client.resolve_fine db c (Client.violationType a)) a)
      = inr (db', r).
Proof.
  intros H Hd. apply createReport_Returned in H as (u & Hu & H).
  exists u. split; [exact Hu|].
  destruct (insert_single_cases db c
              (Client.report_payload u
                 (Client.resolve_fine db c (Client.violationType a)) a))
    as [[e He]|(db1 & r1 & He & Hi)];
    rewrite He in H; injection H as <- <-; simpl in Hd.
  - discriminate.
  - injection Hd as <-. rewrite Hu in Hi. split; [reflexivity|exact Hi].
Qed.

(** ** Report submission *)

(** A kind whose catalog fine is not zero is rewarded with
    [calculate_reward] of that fine, whenever the catalog could be read. *)
Lemma createReport_reward_of_catalog_fine (db db' : database)
    (c : connection) (a : Client.createReport_args) (resp : response report)
    (r : report) (k : violation_type_row) :
  fault c tbl_violation_types = None →
  violation_types db !! Client.violationType a = Some k →
  fine k ≠ 0 →
  Client.createReport db c a = Client.Returned (db', resp) →
  data resp = Some r →
  fine_amount r = Some (fine k)
  ∧ reward_amount r = Some (Sql.calculate_reward (fine k))
  ∧ reward_amount r = Some (10 * fine k).
Proof.
  intros Hf Hk Hz H Hd.
  destruct (createReport_created _ _ _ _ _ _ H Hd) as (u & _ & _ & Hi).
  apply insert_report_inr in Hi as (Hb & _).
  apply build_row_Some in Hb as (_ & _ & _ & _ & _ & Hfine & Hrew & _).
  simpl in Hfine, Hrew.
  assert (E : Client.resolve_fine db c (Client.violationType a) = fine k).
  { unfold Client.resolve_fine, select_fine_single. rewrite Hf, Hk. simpl.
    destruct (Z.eqb_spec (fine k) 0); [contradiction|reflexivity]. }
  rewrite E in Hfine, Hrew. rewrite reward_of_rounds in Hrew.
  rewrite <- calculate_reward_exact. auto.
Qed.

(** Nothing in the schema recomputes a stored reward: the table [reports]
    is the same under any later catalog. *)
Lemma stored_reward_survives_catalog_change (db : database)
    (cat : gmap string violation_type_row) (c : connection) (i : uuid) :
  reports (with_violation_types db cat) = reports db
  ∧ Client.getReportById (with_violation_types db cat) c i
    = Client.getReportById db c i.
Proof. split; reflexivity. Qed.

(** C1 (defect in [createReport]).  For a kind whose catalog fine is 0 the
    stored fine is the fallback 115 and the stored reward 11.50, although
    [calculate_reward] of the catalog fine is 0. *)
Theorem C1_zero_fine_stored_as_fallback :
  fine <$> violation_types warning_db !! "warning" = Some 0
  ∧ Sql.calculate_reward 0 = 0
  ∧ ∃ db' r,
      Client.createReport warning_db (online alice 1000 100%N)
        (submission "warning" None)
      = Client.Returned (db', succeed r)
      ∧ fine_amount r = Some 115
      ∧ reward_amount r = Some 1150.
Proof.
  split; [vm_compute; reflexivity|].
  split; [vm_compute; reflexivity|].
  eexists _, _. split; [vm_compute; reflexivity|].
  split; reflexivity.
Qed.

(** C2.  Whatever [createReport] is passed, a row it inserts has status
    [pending]: the row is appended to the table as returned, a failed
    submission leaves the table alone, and a [status] property in the
    argument object changes nothing. *)
Theorem C2_created_report_is_pending (db db' : database) (c : connection)
    (a : Client.createReport_args) (resp : response report) :
  Client.createReport db c a = Client.Returned (db', resp) →
  (∀ r, data resp = Some r →
        status r = pending ∧ reports db' = reports db ++ [r])
  ∧ (data resp = None → db' = db)
  ∧ (∀ v, Client.createReport db c (with_extra_property "status" v a)
          = Client.createReport db c a).
Proof.
  intros H. split; [|split].
  - intros r Hd.
    destruct (createReport_created _ _ _ _ _ _ H Hd) as (u & _ & _ & Hi).
    apply insert_report_inr in Hi as (Hb & _ & _ & _ & ->).
    apply build_row_Some in Hb as (_ & _ & _ & _ & Hs & _).
    split; [exact Hs|reflexivity].
  - intros Hd. apply createReport_Returned in H as (u & _ & H).
    destruct (insert_single_cases db c
                (Client.report_payload u
                   (Client.resolve_fine db c (Client.violationType a)) a))
      as [[e He]|(db1 & r1 & He & _)];
      rewrite He in H; injection H as <- <-; [reflexivity|discriminate].
  - intros v. reflexivity.
Qed.

Lemma C2_created_report_is_pending_witness :
  status created_row = pending
  ∧ reports created_db = reports empty_db ++ [created_row].
Proof.
  apply (C2_created_report_is_pending empty_db created_db
           (online alice 1000 100%N)
           (with_extra_property "status" (Client.js_string "approved")
              (submission "bike" (Some "abc-1234")))
           (succeed created_row)).
  - vm_compute. reflexivity.
  - reflexivity.
Defined.

(** C7.  For a kind that is not in the catalog the fine resolves to 115
    and the reward to 11.50; [createReport] does not stop there but goes
    on to the insert with these amounts, and the outcome of the insert is
    returned to the caller as an error, the foreign key on
    [violation_type] refusing the row. *)
Theorem C7_absent_kind_resolves_to_fallback (db : database) (c : connection)
    (a : Client.createReport_args) (u : uuid) :
  session c = Some u →
  violation_types db !! Client.violationType a = None →
  Client.resolve_fine db c (Client.violationType a) = 115
  ∧ to_decimal 10 2 (Client.reward_of 115) = Some 1150
  ∧ Client.createReport db c a
    = Client.Returned (insert_single db c (Client.report_payload u 115 a))
  ∧ ∃ e, insert_single db c (Client.report_payload u 115 a) = (db, fail e).
Proof.
  intros Hu Hk.
  assert (E : Client.resolve_fine db c (Client.violationType a) = 115).
  { unfold Client.resolve_fine, select_fine_single.
    destruct (fault c tbl_violation_types); [reflexivity|].
    rewrite Hk. reflexivity. }
  split; [exact E|]. split; [reflexivity|]. split.
  - unfold Client.createReport, Client.getUser. rewrite Hu, E. reflexivity.
  - destruct (insert_single_cases db c (Client.report_payload u 115 a))
      as [[e He]|(db1 & r1 & _ & Hi)]; [eauto|].
    apply insert_report_inr in Hi as (Hb & _ & _ & Hfk & _).
    apply build_row_Some in Hb as (_ & _ & Hv & _).
    unfold foreign_keys_ok in Hfk. simpl in Hv.
    apply andb_prop in Hfk as [_ Hfk].
    apply bool_decide_eq_true in Hfk. rewrite Hv, Hk in Hfk.
    destruct Hfk as [x Hx]. discriminate.
Qed.

Lemma C7_absent_kind_resolves_to_fallback_witness :
  Client.resolve_fine empty_db (online alice 1000 100%N) "towing" = 115
  ∧ to_decimal 10 2 (Client.reward_of 115) = Some 1150.
Proof.
  destruct (C7_absent_kind_resolves_to_fallback empty_db
              (online alice 1000 100%N) (submission "towing" None) alice)
    as (H1 & H2 & _).
  - reflexivity.
  - vm_compute. reflexivity.
  - split; [exact H1|exact H2].
Defined.

(** ** Plates *)

Lemma upper_ascii_idempotent (ch : Ascii.ascii) :
  upper_ascii (upper_ascii ch) = upper_ascii ch.
Proof.
  destruct ch as [[] [] [] [] [] [] [] []]; vm_compute; reflexivity.
Qed.

Lemma toUpperCase_idempotent (s : string) :
  toUpperCase (toUpperCase s) = toUpperCase s.
Proof.
  induction s as [|ch s IH]; simpl; [reflexivity|].
  rewrite upper_ascii_idempotent, IH. reflexivity.
Qed.

Lemma toUpperCase_length (s : string) :
  String.length (toUpperCase s) = String.length s.
Proof. induction s as [|ch s IH]; simpl; congruence. Qed.



(** ** Duplicate detection *)

Lemma filter_nonempty_iff {A : Type} (f : A → bool) (l : list A) :
  List.filter f l ≠ [] ↔ ∃ x, In x l ∧ f x = true.
Proof.
  split.
  - destruct (List.filter f l) as [|x l'] eqn:E; [congruence|].
    intros _. exists x. apply filter_In. rewrite E. left. reflexivity.
  - intros (x & Hx & Hf) E.
    assert (H : In x (List.filter f l)) by (apply filter_In; auto).
    rewrite E in H. destruct H.
Qed.

Lemma limit_one_nonempty {A B : Type} (g : A → B) (l : list A) :
  Nat.ltb 0 (length (take 1 (map g l))) = true ↔ l ≠ [].
Proof.
  destruct l as [|x l]; simpl.
  - split; [discriminate|congruence].
  - split; [discriminate|reflexivity].
Qed.

(** What [checkDuplicate] decides when its query succeeds: some report
    visible to the requester carries the upper-cased plate and the kind,
    and was filed no more than two hours ago.  The coordinates passed are
    not consulted. *)
Lemma checkDuplicate_true_iff (db : database) (c : connection)
    (plate : string) (lat lng : option Q) (kind : string) :
  fault c tbl_reports = None →
  Client.isDuplicate (Client.checkDuplicate db c plate lat lng kind)
    = Some true
  ↔ ∃ r, In r (reports db)
      ∧ session c = Some (user_id r)
      ∧ plate_number r = Some (toUpperCase plate)
      ∧ violation_type r = kind
      ∧ clock c - 7200000 ≤ reported_at r.
Proof.
  intros Hf. unfold Client.checkDuplicate, select_duplicate_ids.
  rewrite Hf. simpl.
  set (l := select_reports db (session c) _).
  assert (Hl : l ≠ [] ↔ ∃ r, In r (reports db)
      ∧ session c = Some (user_id r)
      ∧ plate_number r = Some (toUpperCase plate)
      ∧ violation_type r = kind
      ∧ clock c - 7200000 ≤ reported_at r).
  { unfold l, select_reports. rewrite filter_nonempty_iff.
    split; intros (r & Hin & H); exists r; (split; [exact Hin|]);
      unfold reports_select_using in *;
      rewrite !andb_true_iff, !bool_decide_eq_true, Z.leb_le in *;
      change (2 * 60 * 60 * 1000) with 7200000 in *; tauto. }
  rewrite <- Hl, <- (limit_one_nonempty id l).
  split; [intros [= H]; exact H|intros ->; reflexivity].
Qed.

(** So a report filed two hours and one minute ago, or one of another
    kind, is never the reason for a positive answer. *)
Lemma checkDuplicate_outside_window (db : database) (c : connection)
    (plate : string) (lat lng : option Q) (kind : string) :
  fault c tbl_reports = None →
  (∀ r, In r (reports db) →
        violation_type r ≠ kind ∨ reported_at r ≤ clock c - 7260000) →
  Client.isDuplicate (Client.checkDuplicate db c plate lat lng kind)
    = Some false.
Proof.
  intros Hf Hall.
  destruct (Client.isDuplicate (Client.checkDuplicate db c plate lat lng kind))
    as [[]|] eqn:E.
  - apply checkDuplicate_true_iff in E as (r & Hin & _ & _ & Hk & Ht);
      [|exact Hf].
    destruct (Hall r Hin) as [H|H]; [contradiction|lia].
  - reflexivity.
  - unfold Client.checkDuplicate, select_duplicate_ids in E.
    rewrite Hf in E. simpl in E. discriminate.
Qed.

(** What [check_duplicate_report] decides: some report visible to the
    requester carries exactly the plate passed and the kind, was filed less
    than two hours ago, and lies within the tolerance of coordinates that
    are both present on the row and both passed. *)
Lemma check_duplicate_report_true_iff (db : database) (uid : option uuid)
    (now : timestamp) (plate : string) (lat lng : option Q) (kind : string) :
  Sql.check_duplicate_report db uid now plate lat lng kind = true
  ↔ ∃ r, In r (reports db)
      ∧ uid = Some (user_id r)
      ∧ plate_number r = Some plate
      ∧ violation_type r = kind
      ∧ now - 7200000 < reported_at r
      ∧ Sql.within_tolerance (latitude r) lat = true
      ∧ Sql.within_tolerance (longitude r) lng = true.
Proof.
  unfold Sql.check_duplicate_report.
  set (l := select_reports db uid _).
  assert (Hl : Nat.ltb 0 (length l) = true ↔ l ≠ []).
  { clearbody l. destruct l as [|x l'].
    - split; intros H; [cbv in H; discriminate|congruence].
    - split; intros H; [discriminate|reflexivity]. }
  rewrite Hl. unfold l, select_reports. rewrite filter_nonempty_iff.
  split; intros (r & Hin & H); exists r; (split; [exact Hin|]);
    unfold reports_select_using in *;
    rewrite !andb_true_iff, !bool_decide_eq_true, Z.ltb_lt in *;
    change (2 * 60 * 60 * 1000) with 7200000 in *; tauto.
Qed.

(** The scenario of the specification: ten minutes after the submission
    of plate "abc-1234" for kind "bike", the same plate and kind are
    reported as a duplicate. *)
Example second_submission_is_a_duplicate :
  Client.createReport empty_db (online alice 1000 100%N)
    (submission "bike" (Some "abc-1234"))
  = Client.Returned (created_db, succeed created_row)
  ∧ Client.checkDuplicate created_db (online alice 601000 101%N) "abc-1234"
      (Some (407 # 10)) (Some (- 74 # 1)) "bike"
    = {| Client.isDuplicate := Some true; Client.error := None |}.
Proof. split; vm_compute; reflexivity. Qed.

(** C3 (defect in both duplicate checks).  Ten minutes after Alice's
    report of plate ABC-1234 for kind bike at (40.7, -74.0):
    [checkDuplicate] answers true for coordinates a whole degree away,
    where the stated condition and the SQL function answer false;
    [check_duplicate_report] answers false for the plate in lower case at
    the same place, and for the exact plate without a geolocation, where
    the stated condition holds. *)
Theorem C3_duplicate_checks_miss_the_stated_condition :
  near_duplicate_spec (reports one_report_db) 600000 "abc-1234"
    (Some (417 # 10)) (Some (- 73 # 1)) "bike" = false
  ∧ Client.checkDuplicate one_report_db ten_minutes_later "abc-1234"
      (Some (417 # 10)) (Some (- 73 # 1)) "bike"
    = {| Client.isDuplicate := Some true; Client.error := None |}
  ∧ Sql.check_duplicate_report one_report_db (Some alice) 600000 "ABC-1234"
      (Some (417 # 10)) (Some (- 73 # 1)) "bike" = false
  ∧ near_duplicate_spec (reports one_report_db) 600000 "abc-1234"
      (Some (407 # 10)) (Some (- 74 # 1)) "bike" = true
  ∧ Sql.check_duplicate_report one_report_db (Some alice) 600000 "abc-1234"
      (Some (407 # 10)) (Some (- 74 # 1)) "bike" = false
  ∧ near_duplicate_spec (reports one_report_db) 600000 "ABC-1234"
      None None "bike" = true
  ∧ Sql.check_duplicate_report one_report_db (Some alice) 600000 "ABC-1234"
      None None "bike" = false.
Proof. repeat split; vm_compute; reflexivity. Qed.

(** C10.  When the reports query of [checkDuplicate] returns an error, the
    helper answers [isDuplicate = false] together with that error; a
    failed request to the table is such a case, whatever the table
    holds. *)
Theorem C10_checkDuplicate_fails_open (db : database) (c : connection)
    (plate : string) (lat lng : option Q) (kind : string) (e : pg_error) :
  Supabase.error
    (select_duplicate_ids db c (toUpperCase plate) kind
       (clock c - 2 * 60 * 60 * 1000)) = Some e
  ∨ fault c tbl_reports = Some e →
  Client.checkDuplicate db c plate lat lng kind
  = {| Client.isDuplicate := Some false; Client.error := Some e |}.
Proof.
  intros [H|H]; unfold Client.checkDuplicate.
  - rewrite H. reflexivity.
  - unfold select_duplicate_ids. rewrite H. reflexivity.
Qed.

Lemma C10_checkDuplicate_fails_open_witness :
  near_duplicate_spec (reports one_report_db) 600000 "abc-1234" None None
    "bike" = true
  ∧ Client.checkDuplicate one_report_db (offline alice 600000 0%N)
      "abc-1234" None None "bike"
    = {| Client.isDuplicate := Some false;
         Client.error := Some transport_failure |}.
Proof.
  split; [vm_compute; reflexivity|].
  apply (C10_checkDuplicate_fails_open one_report_db
           (offline alice 600000 0%N) "abc-1234" None None "bike"
           transport_failure).
  right. reflexivity.
Defined.

(** ** The view [user_stats] *)

Section View.

Variable s : report_status.

Lemma count_ids_joined (l : list report) :
  Sql.sql_count (map (option_map id) (map Some l)) = Z.of_nat (length l).
Proof.
  unfold Sql.sql_count. f_equal.
  induction l as [|r l IH]; simpl; congruence.
Qed.

Lemma count_status_joined (l : list report) :
  Sql.sql_count (map (Sql.case_status s) (map Some l)) = count_status s l.
Proof.
  unfold Sql.sql_count, count_status. f_equal.
  induction l as [|r l IH]; simpl; [reflexivity|].
  destruct (bool_decide (status r = s)); simpl; congruence.
Qed.

Lemma sum_reward_joined (l : list report) :
  Sql.coalesce (Sql.sql_sum (map (Sql.case_reward s) (map Some l))) 0
  = sum_reward s l.
Proof.
  induction l as [|r l IH]; simpl; [reflexivity|].
  rewrite <- IH.
  destruct (bool_decide (status r = s)); simpl.
  - destruct (reward_amount r) as [v|]; simpl.
    + destruct (Sql.sql_sum _); simpl; lia.
    + lia.
  - destruct (Sql.sql_sum _); simpl; lia.
Qed.


End View.

Lemma left_join_reports_of (db : database) (p : uuid) :
  Sql.left_join db p
  = match reports_of db p with [] => [None] | rs => map Some rs end.
Proof. reflexivity. Qed.

(** The columns of the view, in terms of the reports of the identity. *)
Lemma user_stats_columns (db : database) (p : uuid) :
  p ∈ profiles db →
  ∃ v, Sql.user_stats db p = Some v
    ∧ Sql.total_reports v = Z.of_nat (length (reports_of db p))
    ∧ Sql.approved_reports v = count_status approved (reports_of db p)
    ∧ Sql.pending_reports v = count_status pending (reports_of db p)
    ∧ Sql.rejected_reports v = count_status rejected (reports_of db p)
    ∧ Sql.total_earned v = sum_reward approved (reports_of db p)
    ∧ Sql.pending_earnings v = sum_reward pending (reports_of db p)
    ∧ Sql.success_rate v
      = round_scale 1
          (if 0 <? Z.of_nat (length (reports_of db p))
           then inject_Z (count_status approved (reports_of db p))
                / inject_Z (Z.of_nat (length (reports_of db p))) * 100
           else 0).
Proof.
  intros Hp. unfold Sql.user_stats.
  rewrite bool_decide_eq_true_2 by exact Hp.
  eexists. split; [reflexivity|]. simpl.
  rewrite left_join_reports_of.
  destruct (reports_of db p) as [|r l] eqn:E.
  - repeat split; reflexivity.
  - rewrite <- E.
    rewrite count_ids_joined, !count_status_joined, !sum_reward_joined.
    repeat split; reflexivity.
Qed.

(** With no report the rate of the view is 0. *)
Lemma user_stats_success_rate_no_report (db : database) (p : uuid)
    (v : Sql.user_stats_row) :
  Sql.user_stats db p = Some v → reports_of db p = [] →
  Sql.success_rate v = 0.
Proof.
  intros H E. unfold Sql.user_stats in H.
  destruct (bool_decide (p ∈ profiles db)); [|discriminate].
  injection H as <-. simpl. rewrite left_join_reports_of, E. reflexivity.
Qed.

(** ** [calculateUserStats] *)




(** *** Doubles *)

Lemma nearest_even_comp (x y : Q) :
  (x == y)%Q → Double.nearest_even x = Double.nearest_even y.
Proof.
  intros H. unfold Double.nearest_even.
  rewrite (Qfloor_comp x y H).
  assert (E : ((x - inject_Z (Qfloor y) ?= 1 # 2)
               = (y - inject_Z (Qfloor y) ?= 1 # 2))%Q)
    by (apply Qcompare_comp; [rewrite H|]; reflexivity).
  rewrite E. reflexivity.
Qed.


Lemma nearest_even_ge (x : Q) (a : Z) :
  (inject_Z a <= x)%Q → (a <= Double.nearest_even x)%Z.
Proof.
  intros H. apply Qfloor_resp_le in H. rewrite Qfloor_Z in H.
  unfold Double.nearest_even.
  destruct (x - inject_Z (Qfloor x) ?= 1 # 2)%Q;
    [destruct (Z.even (Qfloor x))|..]; lia.
Qed.

Lemma nearest_even_le (x : Q) (b : Z) :
  (x <= inject_Z b)%Q → (Double.nearest_even x <= b)%Z.
Proof.
  intros H. pose proof (Qfloor_resp_le _ _ H) as Hf. rewrite Qfloor_Z in Hf.
  unfold Double.nearest_even.
  destruct (Qcompare_spec (x - inject_Z (Qfloor x))%Q (1 # 2)%Q) as [E|E|E];
    [destruct (Z.even (Qfloor x))|..]; try lia.
  all: destruct (Z.eq_dec (Qfloor x) b) as [Eb|Eb]; [|lia].
  all: rewrite Eb in E; revert H E; generalize (inject_Z b); intros; lra.
Qed.

Lemma pow2_inject (k : Z) : 0 <= k → (2 ^ k == inject_Z (2 ^ k))%Q.
Proof. intros H. rewrite Zpower_Qpower by exact H. reflexivity. Qed.

Lemma pow2_neg (k : Z) : 0 <= k → (2 ^ (- k) == / inject_Z (2 ^ k))%Q.
Proof. intros H. rewrite Qpower_opp, pow2_inject by exact H. reflexivity. Qed.

Lemma inject_pow2_pos (k : Z) : 0 <= k → (0 < inject_Z (2 ^ k))%Q.
Proof.
  intros H. change 0%Q with (inject_Z 0). rewrite <- Zlt_Qlt.
  apply Z.pow_pos_nonneg; lia.
Qed.

Lemma Qabs_lt_inject (q : Q) (z : Z) :
  (Qabs q < inject_Z z)%Q ↔ Z.abs (Qnum q) < z * Zpos (Qden q).
Proof.
  destruct q as [n d]. unfold Qlt. simpl. rewrite Z.mul_1_r. reflexivity.
Qed.

Lemma ilog2_lt (q : Q) (k : Z) :
  0 <= k → ¬ (q == 0)%Q → (Qabs q < inject_Z (2 ^ k))%Q →
  Double.ilog2 q < k.
Proof.
  intros Hk Hq Hlt.
  assert (Hn : 0 < Z.abs (Qnum q)).
  { destruct q as [[|n|n] d]; simpl; try lia. exfalso. apply Hq. reflexivity. }
  pose proof (proj1 (Qabs_lt_inject q _) Hlt) as Hz.
  assert (He : Z.log2 (Z.abs (Qnum q)) - Z.log2 (Zpos (Qden q)) <= k).
  { assert (Z.log2 (Z.abs (Qnum q)) <= Z.log2 (Zpos (Qden q) * 2 ^ k))
      by (apply Z.log2_le_mono; lia).
    rewrite Z.log2_mul_pow2 in H by lia. lia. }
  unfold Double.ilog2.
  destruct (Qle_bool _ _) eqn:T; [|lia].
  apply Qle_bool_iff in T.
  destruct (Z.eq_dec (Z.log2 (Z.abs (Qnum q)) - Z.log2 (Zpos (Qden q))) k)
    as [E|E]; [|lia].
  rewrite E, pow2_inject in T by exact Hk.
  exfalso. apply (Qlt_not_le _ _ Hlt). exact T.
Qed.

(** [2^(a-b)] as a quotient of integers. *)
Lemma pow2_sub (a b : Z) :
  0 ≤ a → 0 ≤ b → (2 ^ (a - b) == inject_Z (2 ^ a) / inject_Z (2 ^ b))%Q.
Proof.
  intros Ha Hb. unfold Z.sub.
  rewrite Qpower_plus by discriminate.
  rewrite Qpower_opp, !pow2_inject by assumption. reflexivity.
Qed.

(** [ilog2 q] is the binary order of magnitude of [q]. *)
Lemma ilog2_spec (q : Q) :
  ¬ (q == 0)%Q →
  (2 ^ Double.ilog2 q <= Qabs q)%Q ∧ (Qabs q < 2 ^ (Double.ilog2 q + 1))%Q.
Proof.
  intros Hq.
  assert (Hn : 0 < Z.abs (Qnum q)).
  { destruct q as [[|n|n] d]; simpl; try lia. exfalso. apply Hq. reflexivity. }
  set (n := Z.abs (Qnum q)) in *. set (d := Zpos (Qden q)).
  assert (Hd : 0 < d) by (unfold d; lia).
  destruct (Z.log2_spec n Hn) as [Hn1 Hn2].
  destruct (Z.log2_spec d Hd) as [Hd1 Hd2].
  pose proof (Z.log2_nonneg n) as Ha. pose proof (Z.log2_nonneg d) as Hb.
  assert (Eq : (Qabs q == inject_Z n / inject_Z d)%Q).
  { unfold n, d. destruct q as [m e]. simpl. rewrite Qmake_Qdiv. reflexivity. }
  assert (Hdq : (0 < inject_Z d)%Q)
    by (change 0%Q with (inject_Z 0); rewrite <- Zlt_Qlt; exact Hd).
  assert (Hup : (Qabs q < 2 ^ (Z.log2 n - Z.log2 d + 1))%Q).
  { replace (Z.log2 n - Z.log2 d + 1) with (Z.succ (Z.log2 n) - Z.log2 d)
      by lia.
    rewrite pow2_sub, Eq by lia.
    apply Qlt_shift_div_l; [apply inject_pow2_pos; lia|].
    unfold Qdiv. rewrite <- Qmult_assoc, (Qmult_comm (/ _)), Qmult_assoc.
    apply Qlt_shift_div_r; [exact Hdq|].
    rewrite <- !inject_Z_mult, <- Zlt_Qlt. nia. }
  assert (Hlow : (2 ^ (Z.log2 n - Z.log2 d - 1) <= Qabs q)%Q).
  { replace (Z.log2 n - Z.log2 d - 1) with (Z.log2 n - Z.succ (Z.log2 d))
      by lia.
    rewrite pow2_sub, Eq by lia.
    apply Qle_shift_div_r; [apply inject_pow2_pos; lia|].
    unfold Qdiv. rewrite <- Qmult_assoc, (Qmult_comm (/ _)), Qmult_assoc.
    apply Qle_shift_div_l; [exact Hdq|].
    rewrite <- !inject_Z_mult, <- Zle_Qle. nia. }
  unfold Double.ilog2. fold n. fold d.
  destruct (Qle_bool _ _) eqn:T.
  - apply Qle_bool_iff in T. split; [exact T|exact Hup].
  - split; [exact Hlow|].
    replace (Z.log2 n - Z.log2 d - 1 + 1) with (Z.log2 n - Z.log2 d) by lia.
    apply Qnot_le_lt. intros H. apply Qle_bool_iff in H. congruence.
Qed.

Lemma exponent_le (q : Q) (j : Z) :
  0 <= j <= 53 → ¬ (q == 0)%Q → (Qabs q < inject_Z (2 ^ (53 - j)))%Q →
  Double.exponent q <= - j.
Proof.
  intros Hj Hq Hlt. unfold Double.exponent.
  pose proof (ilog2_lt q (53 - j) ltac:(lia) Hq Hlt). lia.
Qed.

(** The rounding of a number whose last place is [2^-k]. *)
Lemma round_scaled (q : Q) (k : Z) :
  ¬ (q == 0)%Q → Double.exponent q = - k → 0 <= k →
  (Double.round q
   == inject_Z (Double.nearest_even (q * inject_Z (2 ^ k)))
      / inject_Z (2 ^ k))%Q.
Proof.
  intros Hq He Hk. unfold Double.round.
  destruct (Qeq_bool q 0) eqn:T; [apply Qeq_bool_iff in T; contradiction|].
  rewrite He.
  pose proof (inject_pow2_pos k Hk) as Hp.
  assert (E : (q / 2 ^ (- k) == q * inject_Z (2 ^ k))%Q).
  { rewrite pow2_neg by exact Hk. field. lra. }
  rewrite (nearest_even_comp _ _ E), pow2_neg by exact Hk. reflexivity.
Qed.

Lemma Qabs_lt_of_between (q : Q) (a b c : Z) :
  (inject_Z a <= q)%Q → (q <= inject_Z b)%Q → - c < a → b < c →
  (Qabs q < inject_Z c)%Q.
Proof.
  intros Ha Hb Hac Hbc.
  apply Qle_lt_trans with (inject_Z (c - 1)).
  - apply Qabs_Qle_condition. split.
    + apply Qle_trans with (inject_Z a); [|exact Ha].
      rewrite <- inject_Z_opp, <- Zle_Qle. lia.
    + apply Qle_trans with (inject_Z b); [exact Hb|].
      rewrite <- Zle_Qle. lia.
  - rewrite <- Zlt_Qlt. lia.
Qed.

(** Rounding keeps a number between two integers below [2^53] in size. *)
Lemma round_between (q : Q) (a b : Z) :
  - 2 ^ 53 < a → b < 2 ^ 53 →
  (inject_Z a <= q)%Q → (q <= inject_Z b)%Q →
  (inject_Z a <= Double.round q)%Q ∧ (Double.round q <= inject_Z b)%Q.
Proof.
  intros Ha Hb Haq Hqb.
  destruct (Qeq_dec q 0) as [E|E].
  - unfold Double.round. rewrite (proj2 (Qeq_bool_iff q 0) E).
    rewrite E in Haq, Hqb. split; assumption.
  - pose proof (exponent_le q 0 ltac:(lia) E
                  (Qabs_lt_of_between q a b (2 ^ 53) Haq Hqb Ha Hb)) as He.
    set (k := - Double.exponent q).
    assert (Hk : 0 <= k) by (unfold k; lia).
    rewrite (round_scaled q k E ltac:(unfold k; lia) Hk).
    pose proof (inject_pow2_pos k Hk) as Hp.
    split.
    + apply Qle_shift_div_l; [exact Hp|].
      rewrite <- inject_Z_mult, <- Zle_Qle.
      apply nearest_even_ge. rewrite inject_Z_mult.
      apply Qmult_le_compat_r; [exact Haq|apply Qlt_le_weak, Hp].
    + apply Qle_shift_div_r; [exact Hp|].
      rewrite <- inject_Z_mult, <- Zle_Qle.
      apply nearest_even_le. rewrite inject_Z_mult.
      apply Qmult_le_compat_r; [exact Hqb|apply Qlt_le_weak, Hp].
Qed.



Lemma half_units_In (l : list report) (r : report) (z : Z) :
  half_units l = true → In r l → reward_amount r = Some z →
  z mod 50 = 0 ∧ Z.abs z < 10 ^ 10.
Proof.
  intros H Hin Hz. unfold half_units in H.
  rewrite forallb_forall in H. specialize (H r Hin). rewrite Hz in H.
  apply andb_prop in H as [H1 H2]. split.
  - apply Z.eqb_eq. exact H1.
  - apply Z.ltb_lt. exact H2.
Qed.



(** The model on the sums and quotients a JavaScript engine gives:
    [0.1 + 0.2] is the double printed as 0.30000000000000004, and
    [Math.round(23 / 40 * 100)] is 57 where the exact quotient gives 58. *)
Lemma double_examples :
  (Double.add (Double.round (1 # 10)) (Double.round (2 # 10))
   == 1351079888211149 # 4503599627370496)%Q
  ∧ Math_round (Double.mul (Double.div 23 40) 100) = 57
  ∧ Math_round (23 / 40 * 100) = 58.
Proof. repeat split; vm_compute; reflexivity. Qed.

(** *** The sums of the client summary *)






(** C4 (defect in [calculateUserStats]).  For one approved report out of
    three the view gives the rate 33.3, the rate rounded to one decimal,
    and the client calculation gives 33; both give 0 without a report. *)
Theorem C4_client_success_rate_is_a_whole_percent :
  Sql.success_rate <$> Sql.user_stats three_report_db alice = Some 333
  ∧ round_scale 1 (1 / 3 * 100) = 333
  ∧ decimal_value 1 333 == 333 # 10
  ∧ Client.success_rate
      <$> Client.calculateUserStats three_report_db (online alice 0 0%N) alice
    = Some 33
  ∧ Sql.success_rate <$> Sql.user_stats empty_db alice = Some 0
  ∧ Client.success_rate
      <$> Client.calculateUserStats empty_db (online alice 0 0%N) alice
    = Some 0.
Proof. repeat split; vm_compute; reflexivity. Qed.




(** ** Updates under the policies *)

Lemma with_reports_same (db : database) : with_reports db (reports db) = db.
Proof. destruct db; reflexivity. Qed.

Lemma filter_other_ids (f : report → bool) (l : list report) (i : uuid) :
  (∀ y, In y l → id y ≠ i) →
  List.filter (λ x, f x && by_id i x) l = [].
Proof.
  induction l as [|x l IH]; intros H; simpl; [reflexivity|].
  unfold by_id at 1.
  rewrite (bool_decide_eq_false_2 (id x = i)) by (apply H; left; reflexivity).
  rewrite andb_false_r. apply IH. intros y Hy. apply H. right. exact Hy.
Qed.

(** The primary key makes [.eq('id', i)] select one row at most. *)
Lemma filter_by_id (f : report → bool) (l : list report) (r : report) :
  NoDup (map id l) → In r l →
  List.filter (λ x, f x && by_id (id r) x) l = if f r then [r] else [].
Proof.
  induction l as [|x l IH]; intros Hnd Hin; [destruct Hin|].
  simpl in Hnd. apply NoDup_cons in Hnd as [Hx Hnd].
  assert (Hmem : ∀ y, In y l → id y ∈ map id l).
  { intros y Hy. apply list_elem_of_In, in_map, Hy. }
  destruct Hin as [->|Hin]; simpl.
  - unfold by_id at 1. rewrite bool_decide_eq_true_2 by reflexivity.
    rewrite andb_true_r.
    rewrite (filter_other_ids f l (id r)).
    + destruct (f r); reflexivity.
    + intros y Hy E. apply Hx. rewrite <- E. apply Hmem, Hy.
  - unfold by_id at 1.
    rewrite (bool_decide_eq_false_2 (id x = id r)).
    + rewrite andb_false_r. apply IH; assumption.
    + intros E. apply Hx. rewrite E. apply Hmem, Hin.
Qed.

Lemma update_policy_iff (uid : option uuid) (r : report) :
  reports_select_using uid r && reports_update_using uid r = true
  ↔ uid = Some (user_id r) ∧ status r = pending.
Proof.
  unfold reports_select_using, reports_update_using.
  rewrite !andb_true_iff, !bool_decide_eq_true. tauto.
Qed.

Lemma update_check_iff (uid : option uuid) (r : report) :
  reports_update_check uid r = true
  ↔ uid = Some (user_id r) ∧ status r = pending.
Proof.
  unfold reports_update_check, reports_update_using.
  rewrite andb_true_iff, !bool_decide_eq_true. tauto.
Qed.

(** An update that reaches no row returns no row and changes nothing. *)
Lemma update_no_target (db : database) (uid : option uuid)
    (w : report → bool) (set : report → report) :
  List.filter (update_targets uid w) (reports db) = [] →
  update_reports db uid w set = inr (db, []).
Proof.
  intros E. unfold update_reports. rewrite E. simpl.
  assert (M : map (updated_row uid w set) (reports db) = reports db).
  { rewrite <- (map_id (reports db)) at 2. apply map_ext_in.
    intros x Hx. unfold updated_row.
    destruct (update_targets uid w x) eqn:T; [|reflexivity].
    assert (H : In x (List.filter (update_targets uid w) (reports db)))
      by (apply filter_In; auto).
    rewrite E in H. destruct H. }
  rewrite M, with_reports_same. reflexivity.
Qed.

Lemma written_ok_not_rls (db : database) (rows' : list report) (x : report) :
  written_ok db rows' x ≠ Some rls_violation.
Proof.
  unfold written_ok.
  destruct (negb (Nat.eqb (count_id rows' (id x)) 1)); [discriminate|].
  destruct (negb (foreign_keys_ok db x)); discriminate.
Qed.

Lemma update_targets_by_id (db : database) (uid : option uuid) (r : report) :
  NoDup (map id (reports db)) → In r (reports db) →
  List.filter (update_targets uid (by_id (id r))) (reports db)
  = if reports_select_using uid r && reports_update_using uid r
    then [r] else [].
Proof.
  intros Hnd Hin.
  apply (filter_by_id
           (λ x, reports_select_using uid x && reports_update_using uid x)
           (reports db) r Hnd Hin).
Qed.

(** C5 as stated fails: the owner of a pending report cannot approve it,
    the statement is refused although the requester owns the report and it
    is pending. *)
Lemma C5_owner_cannot_move_status :
  ¬ (policy_admits one_report_db (Some alice) bike_report approve
     ↔ Some alice = Some (user_id bike_report)
       ∧ status bike_report = pending).
Proof.
  intros [_ H]. destruct H as [_ H]; [split; reflexivity|].
  apply H. vm_compute. reflexivity.
Qed.

(** C5 (amended).  An update of a report by its id is taken up by the
    policy layer, neither skipped nor refused, if and only if the
    requester owns the report, its status is pending, and the updated row
    is still owned by the requester with status pending; on a report that
    is approved or rejected every update reaches no row and changes
    nothing. *)
Theorem C5_owner_update_only_while_pending (db : database)
    (uid : option uuid) (r : report) (set : report → report) :
  In r (reports db) → NoDup (map id (reports db)) →
  (policy_admits db uid r set
   ↔ (uid = Some (user_id r) ∧ status r = pending)
     ∧ (uid = Some (user_id (set r)) ∧ status (set r) = pending))
  ∧ (status r ≠ pending →
     update_reports db uid (by_id (id r)) set = inr (db, [])).
Proof.
  intros Hin Hnd.
  pose proof (update_targets_by_id db uid r Hnd Hin) as T.
  pose proof (update_policy_iff uid r) as P.
  split.
  - unfold policy_admits.
    destruct (reports_select_using uid r && reports_update_using uid r).
    + assert (Hown : uid = Some (user_id r) ∧ status r = pending)
        by (apply P; reflexivity).
      rewrite <- (update_check_iff uid (set r)).
      unfold update_reports. rewrite T. simpl. rewrite andb_true_r.
      destruct (reports_update_check uid (set r)); simpl.
      * split; [auto|]. intros _.
        match goal with
        | |- context [written_ok ?d ?t ?x] =>
            pose proof (written_ok_not_rls d t x) as E;
            destruct (written_ok d t x) as [e|]
        end.
        -- split; [discriminate|]. intros [= ->]. apply E. reflexivity.
        -- split; discriminate.
      * split; [intros [_ H]; contradiction|intros [_ H]; discriminate].
    + rewrite (update_no_target db uid _ set T).
      split; [intros [H _]; contradiction|].
      intros [H _]. apply P in H. discriminate.
  - intros Hs.
    apply update_no_target. rewrite T.
    destruct (reports_select_using uid r && reports_update_using uid r);
      [|reflexivity].
    destruct P as [P _]. destruct (P eq_refl) as [_ H]. contradiction.
Qed.

Lemma C5_owner_update_only_while_pending_witness :
  (policy_admits one_report_db (Some alice) bike_report (set_plate "NEW-1")
   ↔ (Some alice = Some (user_id bike_report) ∧ status bike_report = pending)
     ∧ (Some alice = Some (user_id (set_plate "NEW-1" bike_report))
        ∧ status (set_plate "NEW-1" bike_report) = pending))
  ∧ (status bike_report ≠ pending →
     update_reports one_report_db (Some alice) (by_id (id bike_report))
       (set_plate "NEW-1") = inr (one_report_db, [])).
Proof.
  apply (C5_owner_update_only_while_pending one_report_db (Some alice)
           bike_report (set_plate "NEW-1")).
  - simpl. left. reflexivity.
  - simpl. apply NoDup_cons. split; [apply not_elem_of_nil|apply NoDup_nil_2].
Defined.

(** ** Isolation between identities *)

Lemma select_hides_other_owner (db : database) (a b : uuid)
    (w : report → bool) :
  a ≠ b →
  select_reports db (Some a) w
  = select_reports (without_owner b db) (Some a) w.
Proof.
  intros Hab. unfold select_reports, without_owner. simpl.
  induction (reports db) as [|x l IH]; simpl; [reflexivity|].
  unfold reports_select_using at 1 3.
  destruct (decide (user_id x = b)) as [E|E].
  - rewrite (bool_decide_eq_true_2 (user_id x = b)) by exact E. simpl.
    rewrite bool_decide_eq_false_2 by (rewrite E; congruence).
    simpl. exact IH.
  - rewrite (bool_decide_eq_false_2 (user_id x = b)) by exact E. simpl.
    unfold reports_select_using at 2.
    destruct (bool_decide (Some a = Some (user_id x)) && w x);
      [f_equal|]; exact IH.
Qed.

Lemma written_rows_pass (uid : option uuid) (w : report → bool)
    (set : report → report) (l : list report) :
  forallb (reports_update_check uid)
    (map set (List.filter (update_targets uid w) l)) = true →
  ∀ x, In x l → update_targets uid w x = true →
       reports_update_check uid (set x) = true.
Proof.
  intros H x Hx Ht.
  rewrite forallb_forall in H. apply H, in_map, filter_In. auto.
Qed.

Lemma update_targets_owner (uid : option uuid) (w : report → bool)
    (x : report) :
  update_targets uid w x = true → uid = Some (user_id x).
Proof.
  unfold update_targets, reports_select_using.
  rewrite !andb_true_iff, bool_decide_eq_true. tauto.
Qed.

(** A successful update leaves the rows of every other owner as they
    were, and returns none of them. *)
Lemma update_keeps_other_owner (db db' : database) (a b : uuid)
    (w : report → bool) (set : report → report) (rows : list report) :
  a ≠ b →
  update_reports db (Some a) w set = inr (db', rows) →
  reports_of db' b = reports_of db b
  ∧ (∀ x, In x (reports db) → user_id x = b → In x (reports db'))
  ∧ (∀ y, In y rows → user_id y = a).
Proof.
  intros Hab. unfold update_reports.
  destruct (forallb (reports_update_check (Some a))
              (map set (List.filter (update_targets (Some a) w) (reports db))))
    eqn:F; simpl; [|discriminate].
  destruct (first_error db _ _); [discriminate|].
  intros [= <- <-].
  pose proof (written_rows_pass _ _ _ _ F) as Hpass.
  split; [|split].
  - unfold reports_of. simpl. revert Hpass.
    generalize (reports db). intros l.
    induction l as [|x l IH]; intros Hpass; simpl; [reflexivity|].
    assert (IH' : List.filter (λ r, bool_decide (user_id r = b))
                    (map (updated_row (Some a) w set) l)
                  = List.filter (λ r, bool_decide (user_id r = b)) l).
    { apply IH. intros y Hy. apply Hpass. right. exact Hy. }
    rewrite IH'.
    destruct (update_targets (Some a) w x) eqn:T.
    + assert (E : updated_row (Some a) w set x = set x)
        by (unfold updated_row; rewrite T; reflexivity).
      pose proof (update_targets_owner _ _ _ T) as Hx.
      pose proof (Hpass x (or_introl eq_refl) T) as Hc.
      apply update_check_iff in Hc as [Hc _].
      rewrite E, !bool_decide_eq_false_2 by congruence. reflexivity.
    + assert (E : updated_row (Some a) w set x = x)
        by (unfold updated_row; rewrite T; reflexivity).
      rewrite E. reflexivity.
  - intros x Hx Hb. simpl.
    assert (E : updated_row (Some a) w set x = x).
    { unfold updated_row.
      destruct (update_targets (Some a) w x) eqn:T; [|reflexivity].
      apply update_targets_owner in T. congruence. }
    rewrite <- E. apply in_map. exact Hx.
  - intros y Hy. apply in_map_iff in Hy as (x & <- & Hx).
    apply filter_In in Hx as [Hx T].
    pose proof (Hpass x Hx T) as Hc.
    apply update_check_iff in Hc as [Hc _]. congruence.
Qed.

(** C6.  For distinct identities [a] and [b] and a report [r] of [b]: no
    select by [a] returns [r], and what it returns is what it would return
    were the rows of [b] absent; fetching [r] by its id is answered as for
    an id that matches nothing; no insert by [a] of a row owned by [b]
    succeeds; an update by [a] leaves the reports of [b] as they were and
    returns none of them, and addressed to [r] by its id it reaches no row
    and reports no error. *)
Theorem C6_reports_isolated_between_identities (db : database) (a b : uuid)
    (r : report) :
  a ≠ b → In r (reports db) → user_id r = b →
  (∀ w, ¬ In r (select_reports db (Some a) w))
  ∧ (∀ w, select_reports db (Some a) w
          = select_reports (without_owner b db) (Some a) w)
  ∧ (∀ c, session c = Some a → fault c tbl_reports = None →
          NoDup (map id (reports db)) →
          Client.getReportById db c (id r) = fail no_single_row)
  ∧ (∀ now i p, ins_user_id p = b →
          ∃ e, insert_report db (Some a) now i p = inl e)
  ∧ (∀ w set db' rows,
          update_reports db (Some a) w set = inr (db', rows) →
          reports_of db' b = reports_of db b
          ∧ In r (reports db') ∧ ¬ In r rows)
  ∧ (∀ set, NoDup (map id (reports db)) →
          update_reports db (Some a) (by_id (id r)) set = inr (db, [])).
Proof.
  intros Hab Hin Hb.
  assert (Hsel : reports_select_using (Some a) r = false).
  { unfold reports_select_using. apply bool_decide_eq_false_2. congruence. }
  split; [|split; [|split; [|split; [|split]]]].
  - intros w H. apply filter_In in H as [_ H]. rewrite Hsel in H.
    discriminate.
  - intros w. apply select_hides_other_owner, Hab.
  - intros c Hs Hf Hnd. unfold Client.getReportById. rewrite Hf, Hs.
    unfold select_reports.
    rewrite (filter_by_id (reports_select_using (Some a)) _ r Hnd Hin).
    rewrite Hsel. reflexivity.
  - intros now i p Hp. unfold insert_report.
    destruct (build_row now i p) as [r0|] eqn:B; [|eauto].
    apply build_row_Some in B as (_ & Hu & _).
    unfold reports_insert_check.
    rewrite bool_decide_eq_false_2 by congruence. simpl. eauto.
  - intros w set db' rows H.
    destruct (update_keeps_other_owner _ _ _ _ _ _ _ Hab H)
      as (H1 & H2 & H3).
    split; [exact H1|]. split; [apply H2; assumption|].
    intros Hr. apply H3 in Hr. congruence.
  - intros set Hnd. apply update_no_target.
    rewrite (update_targets_by_id db (Some a) r Hnd Hin), Hsel.
    reflexivity.
Qed.

Lemma C6_reports_isolated_between_identities_witness :
  (∀ w, ¬ In bob_report (select_reports two_owner_db (Some alice) w))
  ∧ (∀ set, NoDup (map id (reports two_owner_db)) →
       update_reports two_owner_db (Some alice) (by_id (id bob_report)) set
       = inr (two_owner_db, [])).
Proof.
  destruct (C6_reports_isolated_between_identities two_owner_db alice bob
              bob_report) as (H1 & _ & _ & _ & _ & H6).
  - discriminate.
  - simpl. right. left. reflexivity.
  - reflexivity.
  - split; [exact H1|exact H6].
Defined.

(** * Further properties of the code *)

(** ** Rounding to a column *)

Lemma Qfloor_plus_half (n : Z) : Qfloor (inject_Z n + (1 # 2)) = n.
Proof.
  unfold Qfloor, Qplus, inject_Z; simpl.
  symmetry. apply Z.div_unique with (r := 1); lia.
Qed.

Lemma Qceiling_minus_half (n : Z) : Qceiling (inject_Z n - (1 # 2)) = n.
Proof.
  rewrite <- (round_half_away_inject_Z n) at 2.
  unfold round_half_away.
  destruct (Qle_bool 0 (inject_Z n)) eqn:E; [|reflexivity].
  rewrite Qfloor_plus_half.
  unfold Qceiling, Qfloor, Qminus, Qplus, Qopp, inject_Z; simpl.
  change (Z.pos (1 * 2)) with 2.
  replace (- (n * 2 + - (1) * 1)) with (- n * 2 + 1) by lia.
  rewrite <- (Z.div_unique (- n * 2 + 1) 2 (- n) 1) by lia. lia.
Qed.

Lemma round_half_away_between (lo hi : Z) (q : Q) :
  (inject_Z lo <= q)%Q → (q <= inject_Z hi)%Q →
  lo ≤ round_half_away q ≤ hi.
Proof.
  intros Hlo Hhi. unfold round_half_away.
  destruct (Qle_bool 0 q) eqn:E.
  - split.
    + rewrite <- (Qfloor_Z lo). apply Qfloor_resp_le. lra.
    + rewrite <- (Qfloor_plus_half hi). apply Qfloor_resp_le. lra.
  - split.
    + rewrite <- (Qceiling_minus_half lo). apply Qceiling_resp_le. lra.
    + rewrite <- (Qceiling_Z hi). apply Qceiling_resp_le. lra.
Qed.

Lemma round_half_away_error (q : Q) :
  (Qabs (inject_Z (round_half_away q) - q) <= 1 # 2)%Q.
Proof.
  apply Qabs_Qle_condition. unfold round_half_away.
  destruct (Qle_bool 0 q).
  - pose proof (Qfloor_le (q + (1 # 2))) as H1.
    pose proof (Qlt_floor (q + (1 # 2))) as H2.
    rewrite inject_Z_plus in H2. change (inject_Z 1) with 1%Q in H2.
    split; lra.
  - pose proof (Qle_ceiling (q - (1 # 2))) as H1.
    pose proof (Qceiling_lt (q - (1 # 2))) as H2.
    unfold Z.sub in H2. rewrite inject_Z_plus in H2.
    change (inject_Z (Z.opp 1)) with (- (1))%Q in H2. split; lra.
Qed.

(** A number within [b] units of zero fits [decimal(p, 8)] when
    [b * 10^8 < 10^p], and is stored to within half a unit of the eighth
    decimal. *)
Lemma to_decimal_8_within (p : nat) (b : Z) (q : Q) :
  b * 100000000 < 10 ^ Z.of_nat p →
  (inject_Z (- b) <= q)%Q → (q <= inject_Z b)%Q →
  ∃ z, to_decimal p 8 q = Some z
     ∧ (Qabs (decimal_value 8 z - q) <= 1 # 200000000)%Q.
Proof.
  intros Hb Hlo Hhi. unfold to_decimal.
  set (z := round_scale 8 q).
  assert (Hz : - (b * 100000000) ≤ z ≤ b * 100000000).
  { unfold z, round_scale. change (10 ^ Z.of_nat 8) with 100000000.
    replace (- (b * 100000000)) with (- b * 100000000) by lia.
    apply round_half_away_between; rewrite inject_Z_mult;
      change (inject_Z 100000000) with (100000000 # 1)%Q; nra. }
  assert (Hf : fits_precision p z = true).
  { unfold fits_precision. apply Z.ltb_lt. lia. }
  rewrite Hf. exists z. split; [reflexivity|].
  pose proof (round_half_away_error (q * inject_Z (10 ^ Z.of_nat 8))) as He.
  fold (round_scale 8 q) in He. fold z in He.
  unfold decimal_value. change (10 ^ Z.of_nat 8) with 100000000 in *.
  change (inject_Z 100000000) with (100000000 # 1)%Q in *.
  apply Qabs_Qle_condition in He. apply Qabs_Qle_condition.
  destruct He as [He1 He2].
  unfold Qdiv. change (/ (100000000 # 1))%Q with (1 # 100000000)%Q.
  split; lra.
Qed.

(** ** More on report submission *)

Lemma createReport_reward_of_catalog_fine_witness :
  fine_amount created_row = Some 175
  ∧ reward_amount created_row = Some (Sql.calculate_reward 175)
  ∧ reward_amount created_row = Some (10 * 175).
Proof.
  apply (createReport_reward_of_catalog_fine empty_db created_db
           (online alice 1000 100%N) (submission "bike" (Some "abc-1234"))
           (succeed created_row) created_row
           {| label := "Bike Lane"; fine := 175; icon := "🚲";
              description := Some "Blocking bicycle lane" |}).
  - reflexivity.
  - vm_compute. reflexivity.
  - discriminate.
  - vm_compute. reflexivity.
  - reflexivity.
Defined.

(** When the request for the fine fails, [createReport] drops the error
    and submits with the fallback: the report stores fine 115 and reward
    11.50 whatever the catalog says for its kind. *)
Theorem createReport_fallback_when_catalog_unreadable (db db' : database)
    (c : connection) (a : Client.createReport_args) (resp : response report)
    (r : report) (e : pg_error) :
  fault c tbl_violation_types = Some e →
  Client.createReport db c a = Client.Returned (db', resp) →
  data resp = Some r →
  fine_amount r = Some 115 ∧ reward_amount r = Some 1150.
Proof.
  intros Hf H Hd.
  destruct (createReport_created _ _ _ _ _ _ H Hd) as (u & _ & _ & Hi).
  apply insert_report_inr in Hi as (Hb & _).
  apply build_row_Some in Hb as (_ & _ & _ & _ & _ & Hfine & Hrew & _).
  assert (E : Client.resolve_fine db c (Client.violationType a) = 115).
  { unfold Client.resolve_fine, select_fine_single. rewrite Hf. reflexivity. }
  simpl in Hfine, Hrew. rewrite E in Hfine, Hrew.
  split; [exact Hfine|exact Hrew].
Qed.

Lemma createReport_fallback_when_catalog_unreadable_witness :
  fine <$> violation_types empty_db !! "bike" = Some 175
  ∧ fine_amount fallback_row = Some 115
  ∧ reward_amount fallback_row = Some 1150.
Proof.
  split; [vm_compute; reflexivity|].
  apply (createReport_fallback_when_catalog_unreadable empty_db fallback_db
           (catalog_down alice 1000 100%N)
           (submission "bike" (Some "abc-1234"))
           (succeed fallback_row) fallback_row transport_failure).
  - reflexivity.
  - vm_compute. reflexivity.
  - reflexivity.
Defined.

Lemma count_id_zero (l : list report) (i : uuid) :
  count_id l i = 0%nat → ¬ In i (map id l).
Proof.
  unfold count_id. induction l as [|x l IH]; simpl; [tauto|].
  destruct (decide (id x = i)) as [E|E].
  - rewrite bool_decide_eq_true_2 by exact E. discriminate.
  - rewrite bool_decide_eq_false_2 by exact E. intros H [H'|H'];
      [contradiction|exact (IH H H')].
Qed.

Lemma count_id_one (l : list report) (r : report) :
  NoDup (map id l) → In r l → count_id l (id r) = 1%nat.
Proof.
  intros Hnd Hin. unfold count_id.
  pose proof (filter_by_id (λ _, true) l r Hnd Hin) as H.
  assert (E : List.filter (λ x, bool_decide (id x = id r)) l
              = List.filter (λ x, (λ _, true) x && by_id (id r) x) l)
    by (apply filter_ext; intros x; reflexivity).
  rewrite E, H. reflexivity.
Qed.

Lemma NoDup_ids_snoc (l : list report) (r : report) :
  NoDup (map id l) → ¬ In (id r) (map id l) → NoDup (map id (l ++ [r])).
Proof.
  intros Hnd Hr. rewrite map_app. apply NoDup_app.
  split; [exact Hnd|]. split.
  - intros x Hx Hx'. apply list_elem_of_In in Hx.
    apply list_elem_of_singleton in Hx'. congruence.
  - simpl. apply NoDup_singleton.
Qed.

(** [createReport] keeps the tables consistent: ids stay unique, every
    report still refers to a profile and to a catalog kind; it never
    touches [profiles] or the catalog, and it leaves the rows already
    stored in place, adding one at most. *)
Theorem createReport_keeps_tables_consistent (db db' : database)
    (c : connection) (a : Client.createReport_args)
    (resp : response report) :
  well_formed db →
  Client.createReport db c a = Client.Returned (db', resp) →
  well_formed db'
  ∧ profiles db' = profiles db
  ∧ violation_types db' = violation_types db
  ∧ ∃ l, reports db' = reports db ++ l ∧ (length l ≤ 1)%nat.
Proof.
  intros [Hnd Hfk] H.
  apply createReport_Returned in H as (u & Hu & H).
  destruct (insert_single_cases db c
              (Client.report_payload u
                 (Client.resolve_fine db c (Client.violationType a)) a))
    as [[e He]|(db1 & r1 & He & Hi)];
    rewrite He in H; injection H as <- _.
  - split; [split; assumption|]. split; [reflexivity|].
    split; [reflexivity|]. exists []. rewrite app_nil_r. split; [reflexivity|].
    simpl. lia.
  - apply insert_report_inr in Hi as (Hb & _ & Hc & Hf & ->).
    apply build_row_Some in Hb as (Hid & _).
    split; [|split; [reflexivity|split; [reflexivity|]]].
    + split; simpl.
      * apply NoDup_ids_snoc; [exact Hnd|].
        rewrite Hid. apply count_id_zero, Hc.
      * intros r Hr. apply in_app_or in Hr as [Hr|[<-|[]]].
        -- exact (Hfk r Hr).
        -- exact Hf.
    + exists [r1]. split; [reflexivity|]. simpl. lia.
Qed.

Lemma createReport_keeps_tables_consistent_witness :
  well_formed created_db
  ∧ profiles created_db = profiles empty_db
  ∧ violation_types created_db = violation_types empty_db
  ∧ ∃ l, reports created_db = reports empty_db ++ l ∧ (length l ≤ 1)%nat.
Proof.
  apply (createReport_keeps_tables_consistent empty_db created_db
           (online alice 1000 100%N) (submission "bike" (Some "abc-1234"))
           (succeed created_row)).
  - split; [apply NoDup_nil_2|]. intros r [].
  - vm_compute. reflexivity.
Defined.

(** A report [createReport] returned can be fetched by its id, by the
    same identity, as the very row that was returned. *)
Theorem created_report_can_be_fetched (db db' : database) (c c' : connection)
    (a : Client.createReport_args) (resp : response report) (r : report) :
  NoDup (map id (reports db)) →
  Client.createReport db c a = Client.Returned (db', resp) →
  data resp = Some r →
  session c' = session c → fault c' tbl_reports = None →
  Client.getReportById db' c' (id r) = succeed r.
Proof.
  intros Hnd H Hd Hs Hf.
  destruct (createReport_created _ _ _ _ _ _ H Hd) as (u & Hu & _ & Hi).
  apply insert_report_inr in Hi as (Hb & Hown & Hc & _ & ->).
  apply build_row_Some in Hb as (Hid & _).
  unfold Client.getReportById. rewrite Hf, Hs, Hu.
  unfold select_reports. simpl.
  rewrite (filter_by_id (reports_select_using (Some u)) (reports db ++ [r]) r).
  - unfold reports_select_using. rewrite bool_decide_eq_true_2 by exact Hown.
    reflexivity.
  - apply NoDup_ids_snoc; [exact Hnd|]. rewrite Hid. apply count_id_zero, Hc.
  - apply in_or_app. right. left. reflexivity.
Qed.

Lemma created_report_can_be_fetched_witness :
  Client.getReportById created_db (online alice 5000 101%N) (id created_row)
  = succeed created_row.
Proof.
  apply (created_report_can_be_fetched empty_db created_db
           (online alice 1000 100%N) (online alice 5000 101%N)
           (submission "bike" (Some "abc-1234")) (succeed created_row)).
  - apply NoDup_nil_2.
  - vm_compute. reflexivity.
  - reflexivity.
  - reflexivity.
  - reflexivity.
Defined.

(** For two hours after a report with a plate was created, [checkDuplicate]
    by the same identity for that plate, in any letter case, and that kind
    answers true, whatever coordinates it is passed. *)
Theorem created_report_is_found_as_duplicate (db db' : database)
    (c c' : connection) (a : Client.createReport_args)
    (resp : response report) (r : report) (p q : string)
    (lat lng : option Q) :
  Client.createReport db c a = Client.Returned (db', resp) →
  data resp = Some r →
  Client.plateNumber a = Some p →
  toUpperCase q = toUpperCase p →
  session c' = session c → fault c' tbl_reports = None →
  clock c' - 7200000 ≤ clock c →
  Client.checkDuplicate db' c' q lat lng (Client.violationType a)
  = {| Client.isDuplicate := Some true; Client.error := None |}.
Proof.
  intros H Hd Hp Hq Hs Hf Ht.
  destruct (createReport_created _ _ _ _ _ _ H Hd) as (u & Hu & _ & Hi).
  apply insert_report_inr in Hi as (Hb & Hown & _ & _ & ->).
  apply build_row_Some in Hb
    as (_ & _ & Hk & Hplate & _ & _ & _ & Hat).
  simpl in Hk, Hplate. rewrite Hp in Hplate. simpl in Hplate.
  assert (T : Client.isDuplicate
                (Client.checkDuplicate (with_reports db (reports db ++ [r]))
                   c' q lat lng (Client.violationType a)) = Some true).
  { apply checkDuplicate_true_iff; [exact Hf|].
    exists r. split; [simpl; apply in_or_app; right; left; reflexivity|].
    rewrite Hs, Hu, Hq, Hat. auto. }
  revert T. unfold Client.checkDuplicate, select_duplicate_ids.
  rewrite Hf. simpl. intros ->. reflexivity.
Qed.

Lemma created_report_is_found_as_duplicate_witness :
  Client.checkDuplicate created_db (online alice 601000 101%N) "Abc-1234"
    None None "bike"
  = {| Client.isDuplicate := Some true; Client.error := None |}.
Proof.
  apply (created_report_is_found_as_duplicate empty_db created_db
           (online alice 1000 100%N) (online alice 601000 101%N)
           (submission "bike" (Some "abc-1234")) (succeed created_row)
           created_row "abc-1234" "Abc-1234" None None).
  - vm_compute. reflexivity.
  - reflexivity.
  - reflexivity.
  - reflexivity.
  - reflexivity.
  - reflexivity.
  - vm_compute. discriminate.
Defined.

Lemma round_half_away_ge (lo : Z) (q : Q) :
  (inject_Z lo <= q)%Q → lo ≤ round_half_away q.
Proof.
  intros Hlo. unfold round_half_away.
  destruct (Qle_bool 0 q).
  - rewrite <- (Qfloor_Z lo). apply Qfloor_resp_le. lra.
  - rewrite <- (Qceiling_minus_half lo). apply Qceiling_resp_le. lra.
Qed.

(** The coordinate columns: every latitude between -90 and 90 fits
    [decimal(10, 8)] and every longitude between -180 and 180 fits
    [decimal(11, 8)], each stored to within half a unit of the eighth
    decimal; a latitude of 100 degrees or more overflows its column. *)
Theorem coordinates_fit_their_columns (lat lng : Q) :
  ((- 90 <= lat)%Q ∧ (lat <= 90)%Q →
   ∃ z, coerce_decimal 10 8 (Some lat) = Some (Some z)
      ∧ (Qabs (decimal_value 8 z - lat) <= 1 # 200000000)%Q)
  ∧ ((- 180 <= lng)%Q ∧ (lng <= 180)%Q →
     ∃ z, coerce_decimal 11 8 (Some lng) = Some (Some z)
        ∧ (Qabs (decimal_value 8 z - lng) <= 1 # 200000000)%Q)
  ∧ ((100 <= lat)%Q → coerce_decimal 10 8 (Some lat) = None).
Proof.
  split; [|split].
  - intros [Hlo Hhi].
    destruct (to_decimal_8_within 10 90 lat) as (z & Hz & He);
      [reflexivity|exact Hlo|exact Hhi|].
    exists z. unfold coerce_decimal. rewrite Hz. auto.
  - intros [Hlo Hhi].
    destruct (to_decimal_8_within 11 180 lng) as (z & Hz & He);
      [reflexivity|exact Hlo|exact Hhi|].
    exists z. unfold coerce_decimal. rewrite Hz. auto.
  - intros H. unfold coerce_decimal, to_decimal.
    assert (Hz : 10000000000 ≤ round_scale 8 lat).
    { unfold round_scale. change (10 ^ Z.of_nat 8) with 100000000.
      apply round_half_away_ge.
      change (inject_Z 10000000000) with (10000000000 # 1)%Q.
      change (inject_Z 100000000) with (100000000 # 1)%Q. lra. }
    unfold fits_precision.
    rewrite (proj2 (Z.ltb_ge _ _)); [reflexivity|].
    change (10 ^ Z.of_nat 10) with 10000000000. lia.
Qed.

Lemma coordinates_fit_their_columns_witness :
  (∃ z, coerce_decimal 10 8 (Some (407 # 10)) = Some (Some z)
      ∧ (Qabs (decimal_value 8 z - (407 # 10)) <= 1 # 200000000)%Q)
  ∧ coerce_decimal 10 8 (Some (100 # 1)) = None.
Proof.
  destruct (coordinates_fit_their_columns (407 # 10) (- 74 # 1))
    as (H1 & _ & _).
  destruct (coordinates_fit_their_columns (100 # 1) 0) as (_ & _ & H3).
  split.
  - apply H1. split; vm_compute; discriminate.
  - apply H3. vm_compute. discriminate.
Defined.

Lemma coerce_decimal_within (p : nat) (b : Z) (v : option Q) :
  b * 100000000 < 10 ^ Z.of_nat p → within_bound b v →
  ∃ o, coerce_decimal p 8 v = Some o.
Proof.
  intros Hb Hv. destruct v as [q|]; [|exists None; reflexivity].
  destruct Hv as [Hlo Hhi].
  destruct (to_decimal_8_within p b q Hb Hlo Hhi) as (z & Hz & _).
  exists (Some z). unfold coerce_decimal. rewrite Hz. reflexivity.
Qed.

(** When [createReport] succeeds: a signed-in identity with a profile, a
    kind whose catalog fine is non-zero and below 10^9 in size, coordinates
    (if any) within 90 and 180 degrees, an unused id, and requests that go
    through.  The table then grows by exactly the returned row, which is
    owned by the caller, pending, stamped with the time of the call, and
    carries the catalog fine and a tenth of it. *)
Theorem createReport_succeeds (db : database) (c : connection)
    (a : Client.createReport_args) (u : uuid) (k : violation_type_row) :
  session c = Some u →
  fault c tbl_violation_types = None → fault c tbl_reports = None →
  u ∈ profiles db →
  violation_types db !! Client.violationType a = Some k →
  fine k ≠ 0 → - 1000000000 < fine k < 1000000000 →
  within_bound 90 (Client.latitude a) →
  within_bound 180 (Client.longitude a) →
  count_id (reports db) (fresh_uuid c) = 0%nat →
  ∃ r, Client.createReport db c a
       = Client.Returned (with_reports db (reports db ++ [r]), succeed r)
     ∧ id r = fresh_uuid c ∧ user_id r = u
     ∧ violation_type r = Client.violationType a
     ∧ status r = pending
     ∧ fine_amount r = Some (fine k)
     ∧ reward_amount r = Some (10 * fine k)
     ∧ paid_out r = false
     ∧ reported_at r = clock c.
Proof.
  intros Hu Hfc Hfr Hprof Hk Hz Hrange Hlat Hlng Hfresh.
  assert (E : Client.resolve_fine db c (Client.violationType a) = fine k).
  { unfold Client.resolve_fine, select_fine_single. rewrite Hfc, Hk. simpl.
    destruct (Z.eqb_spec (fine k) 0); [contradiction|reflexivity]. }
  destruct (coerce_decimal_within 10 90 _ eq_refl Hlat) as (la & Hla).
  destruct (coerce_decimal_within 11 180 _ eq_refl Hlng) as (lo & Hlo).
  assert (Hrew : to_decimal 10 2 (Client.reward_of (fine k))
                 = Some (10 * fine k)).
  { unfold to_decimal. rewrite reward_of_rounds, calculate_reward_exact.
    unfold fits_precision. rewrite (proj2 (Z.ltb_lt _ _)); [reflexivity|].
    change (10 ^ Z.of_nat 10) with 10000000000. lia. }
  assert (Hint : fits_int4 (fine k) = true).
  { unfold fits_int4. apply andb_true_intro.
    split; [apply Z.leb_le|apply Z.ltb_lt];
      change (2 ^ 31) with 2147483648; lia. }
  eexists. split.
  - unfold Client.createReport, Client.getUser. rewrite Hu, E.
    unfold insert_single. rewrite Hfr. unfold insert_report, build_row.
    simpl. rewrite Hla, Hlo, Hrew, Hint.
    unfold reports_insert_check. simpl.
    rewrite bool_decide_eq_true_2 by exact Hu. simpl.
    rewrite Hfresh. simpl.
    unfold foreign_keys_ok. simpl.
    rewrite bool_decide_eq_true_2 by exact Hprof.
    rewrite bool_decide_eq_true_2 by (rewrite Hk; eauto).
    simpl. reflexivity.
  - simpl. repeat split; reflexivity.
Qed.

Lemma createReport_succeeds_witness :
  ∃ r, Client.createReport empty_db (online alice 1000 100%N)
         (submission "bike" (Some "abc-1234"))
       = Client.Returned
           (with_reports empty_db (reports empty_db ++ [r]), succeed r)
     ∧ id r = 100%N ∧ user_id r = alice
     ∧ violation_type r = "bike"
     ∧ status r = pending
     ∧ fine_amount r = Some 175
     ∧ reward_amount r = Some (10 * 175)
     ∧ paid_out r = false
     ∧ reported_at r = 1000.
Proof.
  apply (createReport_succeeds empty_db (online alice 1000 100%N)
           (submission "bike" (Some "abc-1234")) alice
           {| label := "Bike Lane"; fine := 175; icon := "🚲";
              description := Some "Blocking bicycle lane" |}).
  - reflexivity.
  - reflexivity.
  - reflexivity.
  - simpl. set_solver.
  - vm_compute. reflexivity.
  - discriminate.
  - simpl. lia.
  - split; vm_compute; discriminate.
  - split; vm_compute; discriminate.
  - reflexivity.
Defined.

(** ** Reading one's reports *)

#[local] Instance newer_first_total : Total newer_first.
Proof. intros x y. unfold newer_first. lia. Qed.

Lemma Sorted_take {A : Type} (R : relation A) (l : list A) (n : nat) :
  Sorted R l → Sorted R (take n l).
Proof.
  intros H. revert n.
  induction H as [|x l Hs IH Hh]; intros [|n]; simpl; try constructor.
  - apply IH.
  - destruct Hh as [|y l' Hxy]; destruct n; simpl; constructor. exact Hxy.
Qed.

Lemma In_take {A : Type} (l : list A) (n : nat) (x : A) :
  In x (take n l) → In x l.
Proof.
  revert n. induction l as [|y l IH]; intros [|n]; simpl; try tauto.
  intros [H|H]; [left; exact H|right; exact (IH n H)].
Qed.

(** [getUserReports] returns its rows newest first and no more than the
    limit; each is a stored report of the identity asked for, which is the
    signed-in one; when the limit is not reached by the signed-in
    identity, they are all its reports. *)
Theorem getUserReports_newest_first_within_limit (db : database)
    (c : connection) (u : uuid) (n : nat) (l : list report) :
  data (Client.getUserReports db c u n) = Some l →
  Sorted newer_first l
  ∧ (length l ≤ n)%nat
  ∧ (∀ r, In r l → In r (reports db) ∧ user_id r = u ∧ session c = Some u)
  ∧ (session c = Some u → (length (reports_of db u) ≤ n)%nat →
     l ≡ₚ reports_of db u).
Proof.
  unfold Client.getUserReports, select_user_reports.
  destruct (fault c tbl_reports); [discriminate|]. simpl.
  intros [= <-].
  set (own := select_reports db (session c) (λ r, bool_decide (user_id r = u))).
  split; [|split; [|split]].
  - apply Sorted_take, Sorted_merge_sort. apply _.
  - rewrite length_take. lia.
  - intros r Hr. apply In_take in Hr.
    apply list_elem_of_In in Hr.
    rewrite (merge_sort_Permutation newer_first own) in Hr.
    apply list_elem_of_In in Hr. unfold own, select_reports in Hr.
    apply filter_In in Hr as [Hin H].
    unfold reports_select_using in H.
    rewrite andb_true_iff, !bool_decide_eq_true in H.
    destruct H as [H1 H2]. rewrite H1, H2. auto.
  - intros Hs Hlen.
    assert (E : own = reports_of db u).
    { unfold own, select_reports, reports_of. rewrite Hs.
      apply filter_ext. intros r. unfold reports_select_using.
      destruct (decide (user_id r = u)) as [->|Hne].
      - rewrite !bool_decide_eq_true_2 by reflexivity. reflexivity.
      - rewrite (bool_decide_eq_false_2 (user_id r = u)) by exact Hne.
        apply andb_false_r. }
    rewrite E, take_ge.
    + apply merge_sort_Permutation.
    + rewrite (Permutation_length (merge_sort_Permutation _ _)). exact Hlen.
Qed.

Lemma getUserReports_newest_first_within_limit_witness :
  Sorted newer_first (take 2 (reports three_report_db))
  ∧ (length (take 2 (reports three_report_db)) ≤ 2)%nat.
Proof.
  destruct (getUserReports_newest_first_within_limit three_report_db
              (online alice 0 0%N) alice 2 (take 2 (reports three_report_db)))
    as (H1 & H2 & _).
  - vm_compute. reflexivity.
  - split; [exact H1|exact H2].
Defined.

Lemma select_reports_of_another (db : database) (c : connection) (p : uuid) :
  session c ≠ Some p →
  select_reports db (session c) (λ r, bool_decide (user_id r = p)) = [].
Proof.
  intros Hs. unfold select_reports.
  induction (reports db) as [|x l IH]; simpl; [reflexivity|].
  unfold reports_select_using at 1.
  destruct (decide (user_id x = p)) as [E|E].
  - rewrite bool_decide_eq_false_2 by (rewrite E; exact Hs). exact IH.
  - rewrite (bool_decide_eq_false_2 (user_id x = p)) by exact E.
    rewrite andb_false_r. exact IH.
Qed.

(** Asked for an identity other than the signed-in one, or asked without
    a session, [getUserReports] returns no row and [calculateUserStats] a
    summary of zeros, not an error, whatever that identity has stored. *)
Theorem summary_of_another_identity_is_empty (db : database)
    (c : connection) (p : uuid) (n : nat) :
  session c ≠ Some p → fault c tbl_reports = None →
  Client.getUserReports db c p n = succeed []
  ∧ Client.calculateUserStats db c p = Some Zero.client_stats.
Proof.
  intros Hs Hf.
  assert (E : ∀ m, Client.getUserReports db c p m = succeed []).
  { intros m. unfold Client.getUserReports, select_user_reports.
    rewrite Hf, (select_reports_of_another db c p Hs).
    destruct m; reflexivity. }
  split; [apply E|].
  unfold Client.calculateUserStats. rewrite E. reflexivity.
Qed.

Lemma summary_of_another_identity_is_empty_witness :
  reports_of three_report_db alice ≠ []
  ∧ Client.getUserReports three_report_db (online bob 0 0%N) alice 50
    = succeed []
  ∧ Client.calculateUserStats three_report_db (online bob 0 0%N) alice
    = Some Zero.client_stats.
Proof.
  split; [discriminate|].
  apply (summary_of_another_identity_is_empty three_report_db
           (online bob 0 0%N) alice 50).
  - discriminate.
  - reflexivity.
Defined.

(** ** The success rate *)

Lemma ratio_between_0_and_1 (a t : Z) :
  0 ≤ a ≤ t → 0 < t →
  (0 <= inject_Z a / inject_Z t)%Q ∧ (inject_Z a / inject_Z t <= 1)%Q.
Proof.
  intros [Ha Hat] Ht.
  assert (Ht' : (0 < inject_Z t)%Q)
    by (change 0%Q with (inject_Z 0); rewrite <- Zlt_Qlt; exact Ht).
  split.
  - apply Qle_shift_div_l; [exact Ht'|].
    rewrite Qmult_0_l. change 0%Q with (inject_Z 0).
    rewrite <- Zle_Qle. exact Ha.
  - apply Qle_shift_div_r; [exact Ht'|].
    rewrite Qmult_1_l. rewrite <- Zle_Qle. exact Hat.
Qed.

Lemma count_status_le_length (s : report_status) (l : list report) :
  0 ≤ count_status s l ≤ Z.of_nat (length l).
Proof.
  unfold count_status. split; [lia|].
  apply Nat2Z.inj_le, filter_length_le.
Qed.

(** The success rate is a percentage: [calculateUserStats] returns a whole
    number from 0 to 100, the view a number of tenths from 0 to 1000. *)
Theorem success_rate_is_a_percentage :
  (∀ (db : database) (c : connection) (p : uuid) (st : Client.stats),
     Client.calculateUserStats db c p = Some st →
     0 ≤ Client.success_rate st ≤ 100)
  ∧ (∀ (db : database) (p : uuid) (v : Sql.user_stats_row),
       Sql.user_stats db p = Some v → 0 ≤ Sql.success_rate v ≤ 1000).
Proof.
  split.
  - intros db c p st. unfold Client.calculateUserStats.
    destruct (data (Client.getUserReports db c p 1000)) as [l|];
      [|discriminate].
    intros [= <-]. simpl.
    destruct (length l) as [|m] eqn:E; simpl; [lia|].
    rewrite <- E.
    change (Z.of_nat (length (Client.with_status approved l)))
      with (count_status approved l).
    pose proof (count_status_le_length approved l) as Hc.
    destruct (ratio_between_0_and_1 (count_status approved l)
                (Z.of_nat (length l)) Hc) as [H0 H1]; [lia|].
    unfold Math_round, Double.mul, Double.div.
    destruct (round_between
                (inject_Z (count_status approved l)
                 / inject_Z (Z.of_nat (length l))) 0 1
                eq_refl eq_refl H0 H1) as [R0 R1].
    set (x := Double.round (inject_Z (count_status approved l)
                            / inject_Z (Z.of_nat (length l)))) in *.
    clearbody x.
    change (inject_Z 0) with 0%Q in R0. change (inject_Z 1) with 1%Q in R1.
    destruct (round_between (x * 100) 0 100 eq_refl eq_refl) as [S0 S1].
    { change (inject_Z 0) with 0%Q. clear - R0. lra. }
    { change (inject_Z 100) with 100%Q. clear - R1. lra. }
    set (y := Double.round (x * 100)) in *. clearbody y.
    change (inject_Z 0) with 0%Q in S0.
    change (inject_Z 100) with 100%Q in S1.
    split.
    + change 0 with (Qfloor (1 # 2)). apply Qfloor_resp_le.
      clear - S0. lra.
    + apply Z.le_trans with (Qfloor (inject_Z 100 + (1 # 2)));
        [|rewrite Qfloor_plus_half; lia].
      apply Qfloor_resp_le.
      change (inject_Z 100) with 100%Q. clear - S1. lra.
  - intros db p v H.
    assert (Hp : p ∈ profiles db).
    { unfold Sql.user_stats in H.
      destruct (decide (p ∈ profiles db)) as [Hp|Hp]; [exact Hp|].
      rewrite bool_decide_eq_false_2 in H by exact Hp. discriminate. }
    destruct (user_stats_columns db p Hp)
      as (v' & Hv & _ & _ & _ & _ & _ & _ & Hr).
    rewrite H in Hv. injection Hv as <-. rewrite Hr.
    unfold round_scale. change (10 ^ Z.of_nat 1) with 10.
    change (inject_Z 10) with 10%Q.
    apply round_half_away_between;
      change (inject_Z 0) with 0%Q; change (inject_Z 1000) with 1000%Q.
    all: destruct (Z.ltb_spec 0 (Z.of_nat (length (reports_of db p))))
           as [Ht|Ht]; [|clear; lra].
    all: destruct (ratio_between_0_and_1 _ _
                     (count_status_le_length approved (reports_of db p)) Ht)
           as [H0 H1].
    all: set (x := (inject_Z (count_status approved (reports_of db p))
                    / inject_Z (Z.of_nat (length (reports_of db p))))%Q) in *.
    all: clearbody x; clear - H0 H1; lra.
Qed.

Lemma success_rate_is_a_percentage_witness :
  ∃ st, Client.calculateUserStats three_report_db (online alice 0 0%N) alice
        = Some st
        ∧ 0 ≤ Client.success_rate st ≤ 100.
Proof.
  eexists. split; [reflexivity|].
  apply (proj1 success_rate_is_a_percentage three_report_db
           (online alice 0 0%N) alice).
  reflexivity.
Defined.

(** The view has a row for an identity exactly when it has a profile, and
    for a profile without reports the row is all zeros. *)
Theorem user_stats_row_for_each_profile (db : database) (p : uuid) :
  (Sql.user_stats db p = None ↔ p ∉ profiles db)
  ∧ (p ∈ profiles db → reports_of db p = [] →
     Sql.user_stats db p = Some Zero.view_row).
Proof.
  unfold Sql.user_stats. split.
  - destruct (decide (p ∈ profiles db)) as [Hp|Hp].
    + rewrite bool_decide_eq_true_2 by exact Hp.
      split; [discriminate|contradiction].
    + rewrite bool_decide_eq_false_2 by exact Hp. tauto.
  - intros Hp E. rewrite bool_decide_eq_true_2 by exact Hp.
    rewrite left_join_reports_of, E. reflexivity.
Qed.

Lemma user_stats_row_for_each_profile_witness :
  Sql.user_stats three_report_db bob = Some Zero.view_row.
Proof.
  apply (proj2 (user_stats_row_for_each_profile three_report_db bob)).
  - simpl. set_solver.
  - reflexivity.
Defined.

(** ** More on the duplicate checks *)

(** [check_duplicate_report] reports a duplicate only from a row that has
    both coordinates, and only when it is passed both: with a NULL latitude
    or longitude it answers false whatever the table holds. *)
Theorem check_duplicate_report_needs_coordinates (db : database)
    (uid : option uuid) (now : timestamp) (plate : string)
    (lat lng : option Q) (kind : string) :
  (lat = None ∨ lng = None →
   Sql.check_duplicate_report db uid now plate lat lng kind = false)
  ∧ (Sql.check_duplicate_report db uid now plate lat lng kind = true →
     is_Some lat ∧ is_Some lng
     ∧ ∃ r, In r (reports db) ∧ is_Some (latitude r)
          ∧ is_Some (longitude r)).
Proof.
  assert (W : ∀ (col : option Z) (v : option Q),
              Sql.within_tolerance col v = true → is_Some col ∧ is_Some v).
  { intros [z|] [q|]; simpl; intros H; try discriminate. eauto. }
  assert (Hex : Sql.check_duplicate_report db uid now plate lat lng kind
                = true →
                is_Some lat ∧ is_Some lng
                ∧ ∃ r, In r (reports db) ∧ is_Some (latitude r)
                     ∧ is_Some (longitude r)).
  { intros H. apply check_duplicate_report_true_iff in H
      as (r & Hin & _ & _ & _ & _ & H1 & H2).
    apply W in H1 as [? ?]. apply W in H2 as [? ?]. eauto 10. }
  split; [|exact Hex].
  intros Hnone.
  destruct (Sql.check_duplicate_report db uid now plate lat lng kind);
    [|reflexivity].
  destruct (Hex eq_refl) as ([x Hx] & [y Hy] & _).
  destruct Hnone; congruence.
Qed.

Lemma check_duplicate_report_needs_coordinates_witness :
  Sql.check_duplicate_report one_report_db (Some alice) 600000 "ABC-1234"
    (Some (407 # 10)) None "bike" = false.
Proof.
  apply (proj1 (check_duplicate_report_needs_coordinates one_report_db
                  (Some alice) 600000 "ABC-1234" (Some (407 # 10)) None
                  "bike")).
  right. reflexivity.
Defined.

(** For a plate of ASCII characters already in upper case, whatever
    [check_duplicate_report] reports as a duplicate [checkDuplicate]
    reports too, for the same requester at the same time and for any
    coordinates. *)
Theorem sql_duplicate_is_a_client_duplicate (db : database) (c : connection)
    (plate : string) (lat lng lat' lng' : option Q) (kind : string) :
  fault c tbl_reports = None →
  is_ascii plate = true → toUpperCase plate = plate →
  Sql.check_duplicate_report db (session c) (clock c) plate lat lng kind
  = true →
  Client.checkDuplicate db c plate lat' lng' kind
  = {| Client.isDuplicate := Some true; Client.error := None |}.
Proof.
  intros Hf _ Hup H.
  apply check_duplicate_report_true_iff in H
    as (r & Hin & Hs & Hp & Hk & Ht & _).
  assert (T : Client.isDuplicate
                (Client.checkDuplicate db c plate lat' lng' kind)
              = Some true).
  { apply checkDuplicate_true_iff; [exact Hf|].
    exists r. rewrite Hup. repeat split; try assumption. lia. }
  revert T. unfold Client.checkDuplicate, select_duplicate_ids.
  rewrite Hf. simpl. intros ->. reflexivity.
Qed.

Lemma sql_duplicate_is_a_client_duplicate_witness :
  Client.checkDuplicate one_report_db ten_minutes_later "ABC-1234"
    None None "bike"
  = {| Client.isDuplicate := Some true; Client.error := None |}.
Proof.
  apply (sql_duplicate_is_a_client_duplicate one_report_db ten_minutes_later
           "ABC-1234" (Some (407 # 10)) (Some (- 74 # 1)) None None "bike").
  - reflexivity.
  - reflexivity.
  - reflexivity.
  - vm_compute. reflexivity.
Defined.

(** ** Upper case *)

Lemma upper_ascii_not_lower (ch : Ascii.ascii) :
  is_lower (upper_ascii ch) = false.
Proof.
  destruct ch as [[] [] [] [] [] [] [] []]; vm_compute; reflexivity.
Qed.

Lemma upper_ascii_fixes_non_lower (ch : Ascii.ascii) :
  is_lower ch = false → upper_ascii ch = ch.
Proof.
  unfold is_lower, upper_ascii. intros ->. reflexivity.
Qed.

Lemma upper_ascii_is_ascii (ch : Ascii.ascii) :
  (Ascii.N_of_ascii ch <? 128)%N = true →
  (Ascii.N_of_ascii (upper_ascii ch) <? 128)%N = true.
Proof.
  destruct ch as [[] [] [] [] [] [] [] []]; vm_compute; congruence.
Qed.

Lemma toUpperCase_is_ascii (s : string) :
  is_ascii s = true → is_ascii (toUpperCase s) = true.
Proof.
  induction s as [|ch s IH]; simpl; [reflexivity|].
  intros H. apply andb_prop in H as [H1 H2].
  rewrite (upper_ascii_is_ascii ch H1), (IH H2). reflexivity.
Qed.

Lemma toUpperCase_no_lower (s : string) : has_lower (toUpperCase s) = false.
Proof.
  induction s as [|ch s IH]; simpl; [reflexivity|].
  rewrite upper_ascii_not_lower, IH. reflexivity.
Qed.

Lemma toUpperCase_fixes_non_lower (s : string) :
  has_lower s = false → toUpperCase s = s.
Proof.
  induction s as [|ch s IH]; simpl; [reflexivity|].
  intros H. apply orb_false_elim in H as [H1 H2].
  rewrite (upper_ascii_fixes_non_lower ch H1), (IH H2). reflexivity.
Qed.

(** The plate [createReport] stores for a plate of ASCII characters is in
    canonical form: it is ASCII text of the same length without a letter
    from a to z, upper-casing it again (as [checkDuplicate] does with the
    plate it is asked about, and a second submission would) gives the same
    text, and a plate given without such a letter is stored as given. *)
Theorem stored_plate_is_canonical (db db' : database) (c : connection)
    (a : Client.createReport_args) (resp : response report) (r : report)
    (p : string) :
  Client.plateNumber a = Some p → is_ascii p = true →
  Client.createReport db c a = Client.Returned (db', resp) →
  data resp = Some r →
  ∃ q, plate_number r = Some q ∧ In r (reports db')
     ∧ is_ascii q = true ∧ has_lower q = false
     ∧ String.length q = String.length p
     ∧ toUpperCase q = q
     ∧ (has_lower p = false → q = p).
Proof.
  intros Hp Ha H Hd.
  destruct (createReport_created _ _ _ _ _ _ H Hd) as (u & _ & _ & Hi).
  apply insert_report_inr in Hi as (Hb & _ & _ & _ & ->).
  apply build_row_Some in Hb as (_ & _ & _ & Hpl & _).
  change (plate_number r = option_map toUpperCase (Client.plateNumber a))
    in Hpl.
  exists (toUpperCase p). split; [rewrite Hpl, Hp; reflexivity|].
  split; [simpl; apply in_or_app; right; left; reflexivity|].
  split; [apply toUpperCase_is_ascii, Ha|].
  split; [apply toUpperCase_no_lower|].
  split; [apply toUpperCase_length|].
  split; [apply toUpperCase_idempotent|apply toUpperCase_fixes_non_lower].
Qed.

Lemma stored_plate_is_canonical_witness :
  ∃ q, plate_number created_row = Some q ∧ In created_row (reports created_db)
     ∧ is_ascii q = true ∧ has_lower q = false
     ∧ String.length q = String.length "abc-1234"
     ∧ toUpperCase q = q
     ∧ (has_lower "abc-1234" = false → q = "abc-1234").
Proof.
  apply (stored_plate_is_canonical empty_db created_db
           (online alice 1000 100%N) (submission "bike" (Some "abc-1234"))
           (succeed created_row) created_row "abc-1234").
  - reflexivity.
  - reflexivity.
  - vm_compute. reflexivity.
  - reflexivity.
Defined.

(** ** What the update policy lets an owner do *)

Lemma count_id_map (f : report → report) (l : list report) (i : uuid) :
  (∀ x, In x l → id (f x) = id x) →
  count_id (map f l) i = count_id l i.
Proof.
  unfold count_id. induction l as [|x l IH]; intros H; simpl; [reflexivity|].
  rewrite (H x (or_introl eq_refl)).
  destruct (bool_decide (id x = i)); simpl;
    rewrite IH by (intros y Hy; apply H; right; exact Hy); reflexivity.
Qed.

(** The owner of a pending report can rewrite it in one update as long as
    the row keeps its id, its owner, the status pending and a kind of the
    catalog, with numbers that fit their columns: the plate, as the
    policy's comment intends, but the stored fine and reward as well.  The
    statement returns the new row, replaces that row only, and leaves the
    table consistent. *)
Theorem owner_can_rewrite_pending_report (db : database) (u : uuid)
    (r : report) (set : report → report) :
  well_formed db → In r (reports db) →
  user_id r = u → status r = pending →
  id (set r) = id r → user_id (set r) = u → status (set r) = pending →
  is_Some (violation_types db !! violation_type (set r)) →
  fits_columns (set r) →
  ∃ db', update_reports db (Some u) (by_id (id r)) set = inr (db', [set r])
    ∧ (∀ x, In x (reports db')
            ↔ x = set r ∨ (In x (reports db) ∧ x ≠ r))
    ∧ well_formed db'.
Proof.
  intros [Hnd Hfk] Hin Hu Hs Hid Hu' Hs' Hkind _.
  pose proof (update_targets_by_id db (Some u) r Hnd Hin) as T.
  rewrite (proj2 (update_policy_iff (Some u) r)) in T
    by (split; [congruence|exact Hs]).
  assert (Hone : ∀ x, In x (reports db) →
                      update_targets (Some u) (by_id (id r)) x = true →
                      x = r).
  { intros x Hx Ht.
    assert (H : In x (List.filter (update_targets (Some u) (by_id (id r)))
                        (reports db))) by (apply filter_In; auto).
    rewrite T in H. destruct H as [H|[]]. congruence. }
  assert (Hr : update_targets (Some u) (by_id (id r)) r = true).
  { assert (H : In r (List.filter (update_targets (Some u) (by_id (id r)))
                        (reports db))) by (rewrite T; left; reflexivity).
    apply filter_In in H as [_ H]. exact H. }
  assert (Hids : ∀ x, In x (reports db) →
                      id (updated_row (Some u) (by_id (id r)) set x) = id x).
  { intros x Hx. unfold updated_row.
    destruct (update_targets (Some u) (by_id (id r)) x) eqn:Tx;
      [|reflexivity].
    rewrite (Hone x Hx Tx). exact Hid. }
  assert (Hfk' : foreign_keys_ok db (set r) = true).
  { unfold foreign_keys_ok. apply andb_true_intro. split.
    - apply bool_decide_eq_true. rewrite Hu', <- Hu.
      pose proof (Hfk r Hin) as H. unfold foreign_keys_ok in H.
      apply andb_prop in H as [H _]. apply bool_decide_eq_true in H. exact H.
    - apply bool_decide_eq_true. exact Hkind. }
  eexists. split; [|split].
  - unfold update_reports. rewrite T. simpl.
    rewrite (proj2 (update_check_iff (Some u) (set r)))
      by (split; [congruence|exact Hs']).
    simpl. unfold written_ok.
    rewrite (count_id_map _ _ _ Hids), Hid, (count_id_one _ _ Hnd Hin).
    simpl. rewrite Hfk'. simpl. reflexivity.
  - intros x. simpl. rewrite in_map_iff. split.
    + intros (y & <- & Hy). unfold updated_row.
      destruct (update_targets (Some u) (by_id (id r)) y) eqn:Ty.
      * left. rewrite (Hone y Hy Ty). reflexivity.
      * right. split; [exact Hy|]. intros ->. congruence.
    + intros [->|[Hx Hne]].
      * exists r. split; [|exact Hin]. unfold updated_row. rewrite Hr.
        reflexivity.
      * exists x. split; [|exact Hx]. unfold updated_row.
        destruct (update_targets (Some u) (by_id (id r)) x) eqn:Tx;
          [|reflexivity].
        contradiction (Hne (Hone x Hx Tx)).
  - split; simpl.
    + rewrite map_map. rewrite (map_ext_in _ id); [exact Hnd|exact Hids].
    + intros x Hx. apply in_map_iff in Hx as (y & <- & Hy).
      unfold updated_row.
      destruct (update_targets (Some u) (by_id (id r)) y) eqn:Ty.
      * rewrite (Hone y Hy Ty). exact Hfk'.
      * exact (Hfk y Hy).
Qed.

Lemma owner_can_rewrite_pending_report_witness :
  ∃ db', update_reports one_report_db (Some alice) (by_id (id bike_report))
           (set_reward 9999999999)
         = inr (db', [set_reward 9999999999 bike_report])
    ∧ (∀ x, In x (reports db')
            ↔ x = set_reward 9999999999 bike_report
              ∨ (In x (reports one_report_db) ∧ x ≠ bike_report))
    ∧ well_formed db'.
Proof.
  apply (owner_can_rewrite_pending_report one_report_db alice bike_report
           (set_reward 9999999999)).
  - split.
    + simpl. apply NoDup_singleton.
    + intros r [<-|[]]. vm_compute. reflexivity.
  - left. reflexivity.
  - reflexivity.
  - reflexivity.
  - reflexivity.
  - reflexivity.
  - reflexivity.
  - vm_compute. eauto.
  - repeat split; intros z [= <-]; reflexivity.
Defined.

(** ** Profiles *)

Lemma insert_auth_user_inr (now : timestamp) (new : AuthUsers.row)
    (st st' : Profiles.accounts) :
  Profiles.insert_auth_user now new st = inr st' →
  Profiles.profiles st !! AuthUsers.id new = None
  ∧ st' = {| Profiles.auth_users :=
               <[AuthUsers.id new := new]> (Profiles.auth_users st);
             Profiles.profiles :=
               <[AuthUsers.id new := Profiles.new_profile now new]>
                 (Profiles.profiles st) |}.
Proof.
  unfold Profiles.insert_auth_user, Profiles.handle_new_user.
  destruct (Profiles.auth_users st !! AuthUsers.id new); [discriminate|].
  destruct (Profiles.profiles st !! AuthUsers.id new); [discriminate|].
  intros [= <-]. split; reflexivity.
Qed.

(** A new user gets exactly one profile: when the insert into
    [auth.users] succeeds there was no profile for the id, there is now the
    one built from the user's id, email and [full_name] with the column
    defaults, every other profile is as before, and if each user had a
    profile before, each has one after.  An id that already has a profile
    makes the insert fail. *)
Theorem signup_provisions_one_profile (now : timestamp)
    (new : AuthUsers.row) (st : Profiles.accounts) :
  (∀ st', Profiles.insert_auth_user now new st = inr st' →
     Profiles.profiles st !! AuthUsers.id new = None
     ∧ Profiles.profiles st' !! AuthUsers.id new
       = Some (Profiles.new_profile now new)
     ∧ (∀ k, k ≠ AuthUsers.id new →
             Profiles.profiles st' !! k = Profiles.profiles st !! k)
     ∧ Profiles.auth_users st' !! AuthUsers.id new = Some new
     ∧ (dom (Profiles.profiles st) = dom (Profiles.auth_users st) →
        dom (Profiles.profiles st') = dom (Profiles.auth_users st')))
  ∧ (is_Some (Profiles.profiles st !! AuthUsers.id new) →
     Profiles.insert_auth_user now new st = inl unique_violation).
Proof.
  split.
  - intros st' H. apply insert_auth_user_inr in H as [E ->]. simpl.
    split; [exact E|]. split; [apply lookup_insert_eq|].
    split; [intros k Hk; apply lookup_insert_ne; congruence|].
    split; [apply lookup_insert_eq|].
    intros Hd. rewrite !dom_insert_L, Hd. reflexivity.
  - intros [p Hp]. unfold Profiles.insert_auth_user, Profiles.handle_new_user.
    destruct (Profiles.auth_users st !! AuthUsers.id new); [reflexivity|].
    rewrite Hp. reflexivity.
Qed.

Lemma signup_provisions_one_profile_witness :
  Profiles.profiles carol_accounts !! carol
  = Some (Profiles.new_profile 500 carol_signup)
  ∧ Profiles.insert_auth_user 900 carol_signup carol_accounts
    = inl unique_violation.
Proof.
  destruct (signup_provisions_one_profile 500 carol_signup no_accounts)
    as [H1 _].
  destruct (signup_provisions_one_profile 900 carol_signup carol_accounts)
    as [_ H2].
  split.
  - destruct (H1 carol_accounts) as (_ & H & _); [reflexivity|exact H].
  - apply H2. vm_compute. eauto.
Defined.

(** [getProfile] returns a profile to its owner only: the row returned is
    the stored row of the signed-in identity; the profile of anyone else is
    answered like a missing one; and the profile a signup created is read
    back as created. *)
Theorem getProfile_returns_own_profile_only (st : Profiles.accounts)
    (c : connection) (down : option pg_error) (k : uuid) :
  (∀ x, data (Profiles.getProfile st c down k) = Some x →
        session c = Some k ∧ x.1 = k
        ∧ Profiles.profiles st !! k = Some x.2)
  ∧ (session c ≠ Some k → down = None →
     Profiles.getProfile st c down k = fail no_single_row)
  ∧ (∀ now new st0,
       Profiles.insert_auth_user now new st0 = inr st →
       AuthUsers.id new = k → session c = Some k → down = None →
       Profiles.getProfile st c down k
       = succeed (k, Profiles.new_profile now new)).
Proof.
  unfold Profiles.getProfile, Profiles.profiles_select_using.
  split; [|split].
  - intros x. destruct down; [discriminate|].
    destruct (Profiles.profiles st !! k) as [p|]; [|discriminate].
    destruct (decide (session c = Some k)) as [E|E].
    + rewrite bool_decide_eq_true_2 by exact E. intros [= <-]. auto.
    + rewrite bool_decide_eq_false_2 by exact E. discriminate.
  - intros Hs ->. destruct (Profiles.profiles st !! k); [|reflexivity].
    rewrite bool_decide_eq_false_2 by exact Hs. reflexivity.
  - intros now new st0 Hi Hid Hs ->.
    apply insert_auth_user_inr in Hi as [_ ->]. simpl.
    rewrite <- Hid, lookup_insert_eq, Hid.
    rewrite bool_decide_eq_true_2 by exact Hs. reflexivity.
Qed.

Lemma getProfile_returns_own_profile_only_witness :
  Profiles.getProfile carol_accounts (online alice 0 0%N) None carol
  = fail no_single_row
  ∧ Profiles.getProfile carol_accounts (online carol 0 0%N) None carol
    = succeed (carol, Profiles.new_profile 500 carol_signup).
Proof.
  destruct (getProfile_returns_own_profile_only carol_accounts
              (online alice 0 0%N) None carol) as (_ & H2 & _).
  destruct (getProfile_returns_own_profile_only carol_accounts
              (online carol 0 0%N) None carol) as (_ & _ & H3).
  split.
  - apply H2; [discriminate|reflexivity].
  - apply (H3 500 carol_signup no_accounts); reflexivity.
Defined.

(** What [updateProfile] does: it never touches the profile of another
    id, nor [auth.users], and keeps the set of profiles; a row it returns
    belongs to the signed-in identity, is the stored row, and is the old
    row with the named columns replaced and [updated_at] set to the time of
    the call, whatever [updated_at] the updates carried; when it returns no
    row nothing has changed. *)
Theorem updateProfile_changes_own_row_only (st st' : Profiles.accounts)
    (c : connection) (down : option pg_error) (k : uuid)
    (u : Profiles.profile_updates) (resp : response (uuid * Profiles.profile)) :
  Profiles.updateProfile st c down k u = (st', resp) →
  (∀ j, j ≠ k → Profiles.profiles st' !! j = Profiles.profiles st !! j)
  ∧ Profiles.auth_users st' = Profiles.auth_users st
  ∧ dom (Profiles.profiles st') = dom (Profiles.profiles st)
  ∧ (∀ x, data resp = Some x →
        session c = Some k ∧ x.1 = k
        ∧ Profiles.profiles st' !! k = Some x.2
        ∧ Profiles.updated_at x.2 = clock c
        ∧ ∃ p, Profiles.profiles st !! k = Some p
             ∧ x.2 = Profiles.apply_updates
                       (Profiles.stamped (clock c) u) p)
  ∧ (data resp = None → st' = st).
Proof.
  unfold Profiles.updateProfile.
  assert (Hstay : ∀ e, (st, @fail (uuid * Profiles.profile) e) = (st', resp) →
    (∀ j, j ≠ k → Profiles.profiles st' !! j = Profiles.profiles st !! j)
    ∧ Profiles.auth_users st' = Profiles.auth_users st
    ∧ dom (Profiles.profiles st') = dom (Profiles.profiles st)
    ∧ (∀ x, data resp = Some x →
          session c = Some k ∧ x.1 = k
          ∧ Profiles.profiles st' !! k = Some x.2
          ∧ Profiles.updated_at x.2 = clock c
          ∧ ∃ p, Profiles.profiles st !! k = Some p
               ∧ x.2 = Profiles.apply_updates
                         (Profiles.stamped (clock c) u) p)
    ∧ (data resp = None → st' = st)).
  { intros e [= <- <-].
    split; [intros j _; reflexivity|]. split; [reflexivity|].
    split; [reflexivity|].
    split; [intros x Hx; discriminate Hx|reflexivity]. }
  destruct down as [e|]; [apply Hstay|].
  destruct (Profiles.profiles st !! k) as [p|] eqn:Hp; [|apply Hstay].
  unfold Profiles.profiles_select_using, Profiles.profiles_update_using.
  destruct (decide (session c = Some k)) as [Hs|Hs].
  - rewrite !bool_decide_eq_true_2 by exact Hs. simpl.
    destruct (decide (session c
                      = Some (default k (Profiles.upd_id u)))) as [Hn|Hn].
    + rewrite bool_decide_eq_true_2 by exact Hn. simpl.
      assert (E : default k (Profiles.upd_id u) = k) by congruence.
      rewrite E. intros [= <- <-]. simpl.
      split; [|split; [reflexivity|split; [|split]]].
      * intros j Hj. rewrite lookup_insert_ne, lookup_delete_ne by congruence.
        reflexivity.
      * rewrite insert_delete_eq, dom_insert_L.
        apply subseteq_union_1_L, singleton_subseteq_l, elem_of_dom. eauto.
      * intros x [= <-]. simpl.
        split; [exact Hs|]. split; [reflexivity|].
        split; [apply lookup_insert_eq|]. split; [reflexivity|].
        exists p. split; reflexivity.
      * discriminate.
    + rewrite bool_decide_eq_false_2 by exact Hn. simpl. apply Hstay.
  - rewrite !bool_decide_eq_false_2 by exact Hs. simpl. apply Hstay.
Qed.

Lemma updateProfile_changes_own_row_only_witness :
  ∃ x, data (snd (Profiles.updateProfile carol_accounts (online carol 700 0%N)
                    None carol phone_update)) = Some x
       ∧ Profiles.updated_at x.2 = 700.
Proof.
  eexists. split; [reflexivity|].
  destruct (updateProfile_changes_own_row_only carol_accounts
              (fst (Profiles.updateProfile carol_accounts
                      (online carol 700 0%N) None carol phone_update))
              (online carol 700 0%N) None carol phone_update
              (snd (Profiles.updateProfile carol_accounts
                      (online carol 700 0%N) None carol phone_update)))
    as (_ & _ & _ & H & _).
  - apply surjective_pairing.
  - destruct (H _ eq_refl) as (_ & _ & _ & Ht & _). exact Ht.
Defined.

(** When [updateProfile] succeeds: the signed-in identity updating its own
    existing profile, without renaming its id, over a request that goes
    through.  Updating the profile of anyone else, or one's own id to
    another, changes nothing and returns an error. *)
Theorem updateProfile_succeeds_for_owner_only (st : Profiles.accounts)
    (c : connection) (k : uuid) (u : Profiles.profile_updates)
    (p : Profiles.profile) :
  Profiles.profiles st !! k = Some p →
  (session c = Some k →
   Profiles.upd_id u = None ∨ Profiles.upd_id u = Some k →
   ∃ st', Profiles.updateProfile st c None k u
          = (st', succeed (k, Profiles.apply_updates
                                (Profiles.stamped (clock c) u) p)))
  ∧ (session c ≠ Some k →
     Profiles.updateProfile st c None k u = (st, fail no_single_row))
  ∧ (session c = Some k →
     ∀ j, j ≠ k → Profiles.upd_id u = Some j →
     Profiles.updateProfile st c None k u = (st, fail rls_violation)).
Proof.
  intros Hp. unfold Profiles.updateProfile. rewrite Hp.
  unfold Profiles.profiles_select_using, Profiles.profiles_update_using.
  split; [|split].
  - intros Hs Hid. rewrite !bool_decide_eq_true_2 by exact Hs. simpl.
    assert (E : default k (Profiles.upd_id u) = k)
      by (destruct Hid as [->| ->]; reflexivity).
    rewrite E, bool_decide_eq_true_2 by exact Hs. simpl. eauto.
  - intros Hs. rewrite !bool_decide_eq_false_2 by exact Hs. reflexivity.
  - intros Hs j Hj Hid. rewrite !bool_decide_eq_true_2 by exact Hs. simpl.
    rewrite Hid. simpl.
    rewrite bool_decide_eq_false_2 by congruence. reflexivity.
Qed.

Lemma updateProfile_succeeds_for_owner_only_witness :
  (∃ st', Profiles.updateProfile carol_accounts (online carol 700 0%N) None
            carol phone_update
          = (st', succeed (carol,
               Profiles.apply_updates (Profiles.stamped 700 phone_update)
                 (Profiles.new_profile 500 carol_signup))))
  ∧ Profiles.updateProfile carol_accounts (online alice 700 0%N) None carol
      phone_update
    = (carol_accounts, fail no_single_row).
Proof.
  destruct (updateProfile_succeeds_for_owner_only carol_accounts
              (online carol 700 0%N) carol phone_update
              (Profiles.new_profile 500 carol_signup)) as (H1 & _ & _);
    [reflexivity|].
  destruct (updateProfile_succeeds_for_owner_only carol_accounts
              (online alice 700 0%N) carol phone_update
              (Profiles.new_profile 500 carol_signup)) as (_ & H2 & _);
    [reflexivity|].
  split.
  - apply H1; [reflexivity|left; reflexivity].
  - apply H2. discriminate.
Defined.

(** ** Photo upload *)

Lemma split_segments (sep : Ascii.ascii) (s : string) :
  Storage.split sep s ≠ [] ∧ Forall (Storage.free_of sep) (Storage.split sep s).
Proof.
  induction s as [|ch s [IH1 IH2]]; simpl.
  - split; [discriminate|]. repeat constructor.
  - destruct (decide (ch = sep)) as [E|E].
    + rewrite bool_decide_eq_true_2 by exact E.
      split; [discriminate|]. constructor; [exact I|exact IH2].
    + rewrite bool_decide_eq_false_2 by exact E.
      destruct (Storage.split sep s) as [|h t]; [contradiction|].
      split; [discriminate|].
      apply Forall_cons in IH2 as [Hh Ht].
      constructor; [split; assumption|exact Ht].
Qed.

Lemma split_free (sep : Ascii.ascii) (s : string) :
  Storage.free_of sep s → Storage.split sep s = [s].
Proof.
  induction s as [|ch s IH]; simpl; [reflexivity|].
  intros [Hch Hs]. rewrite bool_decide_eq_false_2 by exact Hch.
  rewrite (IH Hs). reflexivity.
Qed.

Lemma last_cons_nonempty {A : Type} (x : A) (l : list A) :
  l ≠ [] → last (x :: l) = last l.
Proof. destruct l; [contradiction|reflexivity]. Qed.

Lemma pop_split_append (sep : Ascii.ascii) (a e : string) :
  Storage.pop (Storage.split sep (a +:+ String sep e))
  = Storage.pop (Storage.split sep e).
Proof.
  unfold Storage.pop. induction a as [|ch a IH]; simpl.
  - rewrite bool_decide_eq_true_2 by reflexivity.
    apply last_cons_nonempty, split_segments.
  - destruct (bool_decide (ch = sep)).
    + rewrite last_cons_nonempty by apply split_segments. exact IH.
    + rewrite <- IH.
      assert (L : (2 ≤ length (Storage.split sep (a +:+ String sep e)))%nat).
      { clear. induction a as [|x a IHa]; simpl.
        - rewrite bool_decide_eq_true_2 by reflexivity. simpl.
          destruct (Storage.split sep e) eqn:E;
            [destruct (proj1 (split_segments sep e) E)|simpl; lia].
        - destruct (bool_decide (x = sep)); simpl; [lia|].
          destruct (Storage.split sep (a +:+ String sep e)) as [|h [|h' t]];
            simpl in *; lia. }
      destruct (Storage.split sep (a +:+ String sep e)) as [|h [|h' t]];
        simpl in L; try lia. reflexivity.
Qed.

Lemma pop_split_suffix (sep : Ascii.ascii) (s : string) :
  ∃ pre e, Storage.pop (Storage.split sep s) = Some e ∧ s = pre +:+ e
         ∧ (length (Storage.split sep s) = 1%nat → pre = EmptyString).
Proof.
  unfold Storage.pop. induction s as [|ch s (pre & e & IH & Hs & H1)]; simpl.
  - exists EmptyString, EmptyString. repeat split; reflexivity.
  - pose proof (proj1 (split_segments sep s)) as Hne.
    destruct (bool_decide (ch = sep)).
    + rewrite last_cons_nonempty by exact Hne.
      exists (String ch pre), e. split; [exact IH|].
      split; [rewrite Hs at 1; reflexivity|].
      destruct (Storage.split sep s); [contradiction|discriminate].
    + destruct (Storage.split sep s) as [|h [|h' t]].
      * contradiction.
      * simpl in IH. injection IH as <-.
        rewrite (H1 eq_refl) in Hs. simpl in Hs.
        exists EmptyString, (String ch h).
        split; [reflexivity|]. split; [rewrite Hs; reflexivity|reflexivity].
      * exists (String ch pre), e. split; [exact IH|].
        split; [rewrite Hs at 1; reflexivity|discriminate].
Qed.

Lemma fileExt_last_segment (f : Storage.file) :
  ∃ pre e, Storage.fileExt f = Some e
         ∧ Storage.free_of Storage.dot e
         ∧ Storage.name f = pre +:+ e.
Proof.
  unfold Storage.fileExt.
  destruct (pop_split_suffix Storage.dot (Storage.name f))
    as (pre & e & He & Hs & _).
  exists pre, e. split; [exact He|]. split; [|exact Hs].
  pose proof (proj2 (split_segments Storage.dot (Storage.name f))) as Hall.
  unfold Storage.pop in He. apply last_Some in He as (l & Hl).
  rewrite Hl in Hall. apply Forall_app in Hall as [_ Hall].
  apply Forall_cons in Hall as [Hall _]. exact Hall.
Qed.

(** The extension [uploadPhoto] takes from a file name is the part after
    the last dot: it is always defined, holds no dot and ends the name; a
    name without a dot is its own extension. *)
Theorem fileExt_is_the_part_after_the_last_dot (f : Storage.file) :
  (∃ pre e, Storage.fileExt f = Some e
          ∧ Storage.free_of Storage.dot e
          ∧ Storage.name f = pre +:+ e)
  ∧ (Storage.free_of Storage.dot (Storage.name f) →
     Storage.fileExt f = Some (Storage.name f))
  ∧ (∀ base e, Storage.name f = base +:+ "." +:+ e →
       Storage.free_of Storage.dot e → Storage.fileExt f = Some e).
Proof.
  split; [apply fileExt_last_segment|].
  unfold Storage.fileExt, Storage.dot. split.
  - intros Hfree. rewrite (split_free _ _ Hfree). reflexivity.
  - intros base e Hn He. rewrite Hn.
    replace ("." +:+ e) with (String Storage.dot e) by reflexivity.
    unfold Storage.dot in *.
    rewrite pop_split_append, (split_free _ _ He). reflexivity.
Qed.

Lemma fileExt_is_the_part_after_the_last_dot_witness :
  Storage.fileExt {| Storage.name := "photo"; Storage.content := "" |}
  = Some "photo"
  ∧ Storage.fileExt {| Storage.name := "IMG.0042.jpeg"; Storage.content := "" |}
    = Some "jpeg".
Proof.
  split.
  - apply (proj1 (proj2 (fileExt_is_the_part_after_the_last_dot
                           {| Storage.name := "photo";
                              Storage.content := "" |}))).
    simpl. repeat split; discriminate.
  - apply (proj2 (proj2 (fileExt_is_the_part_after_the_last_dot
                           {| Storage.name := "IMG.0042.jpeg";
                              Storage.content := "" |})) "IMG.0042" "jpeg").
    + reflexivity.
    + simpl. repeat split; discriminate.
Defined.

(** Decimal digits *)
Lemma pretty_N_go_free (ch : Ascii.ascii) (x : N) (s : string) :
  (∀ d, pretty_N_char d ≠ ch) → Storage.free_of ch s →
  Storage.free_of ch (pretty_N_go x s).
Proof.
  intros Hd. revert s.
  induction (N.lt_wf_0 x) as [x _ IH]; intros s Hs.
  destruct (decide (x = 0)%N) as [->|Hx].
  - rewrite pretty_N_go_0. exact Hs.
  - rewrite pretty_N_go_step by lia. apply IH.
    + apply N.div_lt; lia.
    + simpl. split; [apply Hd|exact Hs].
Qed.

Lemma pretty_Z_free (ch : Ascii.ascii) (z : Z) :
  (∀ d, pretty_N_char d ≠ ch) → ch ≠ Storage.dash →
  Storage.free_of ch (pretty z).
Proof.
  intros Hd Hdash.
  assert (HN : ∀ n : N, Storage.free_of ch (pretty n)).
  { intros n. unfold pretty, pretty_N. destruct (decide (n = 0)%N).
    - simpl. split; [apply (Hd 0%N)|exact I].
    - apply pretty_N_go_free; [exact Hd|exact I]. }
  destruct z as [|p|p]; unfold pretty, pretty_Z.
  - simpl. split; [apply (Hd 0%N)|exact I].
  - apply HN.
  - simpl. split; [intros E; apply Hdash; rewrite <- E; reflexivity|apply HN].
Qed.

Lemma digit_not (ch : Ascii.ascii) :
  ch = Storage.dot ∨ ch = Storage.slash → ∀ d, pretty_N_char d ≠ ch.
Proof.
  intros [-> | ->] d; unfold pretty_N_char;
    repeat case_match; discriminate.
Qed.

Lemma first_separator (ch : Ascii.ascii) (a b r r' : string) :
  Storage.free_of ch a → Storage.free_of ch b →
  a +:+ String ch r = b +:+ String ch r' → a = b ∧ r = r'.
Proof.
  revert b. induction a as [|x a IH]; intros [|y b] Ha Hb; simpl.
  - intros [= ->]. auto.
  - intros [= <- _]. destruct Hb as [Hb _]. contradiction.
  - intros [= -> _]. destruct Ha as [Ha _]. contradiction.
  - intros [= <- H]. destruct Ha as [_ Ha], Hb as [_ Hb].
    destruct (IH b Ha Hb H) as [-> ->]. auto.
Qed.

Lemma split_first_segment (ch : Ascii.ascii) (a r : string) :
  Storage.free_of ch a →
  Storage.split ch (a +:+ String ch r) = a :: Storage.split ch r.
Proof.
  induction a as [|x a IH]; simpl.
  - intros _. rewrite bool_decide_eq_true_2 by reflexivity. reflexivity.
  - intros [Hx Ha]. rewrite bool_decide_eq_false_2 by exact Hx.
    rewrite (IH Ha). reflexivity.
Qed.

(** Two uploads get the same path only for the same user at the same
    millisecond with the same extension, given user ids without a slash;
    and the first folder of every path is the id of the user. *)
Theorem upload_paths_are_namespaced_by_user (u u' : string)
    (t t' : timestamp) (f f' : Storage.file) :
  Storage.free_of Storage.slash u → Storage.free_of Storage.slash u' →
  (Storage.fileName u t f = Storage.fileName u' t' f' →
   u = u' ∧ t = t' ∧ Storage.fileExt f = Storage.fileExt f')
  ∧ ∃ rest, Storage.split Storage.slash (Storage.fileName u t f) = u :: rest.
Proof.
  intros Hu Hu'. split.
  - unfold Storage.fileName, Storage.interpolate. intros H.
    destruct (fileExt_last_segment f) as (pre & e & He & Hfree & _).
    destruct (fileExt_last_segment f') as (pre' & e' & He' & Hfree' & _).
    rewrite He, He' in *. simpl in H.
    change ("/" +:+ pretty t +:+ "." +:+ e)
      with (String Storage.slash (pretty t +:+ String Storage.dot e)) in H.
    change ("/" +:+ pretty t' +:+ "." +:+ e')
      with (String Storage.slash (pretty t' +:+ String Storage.dot e')) in H.
    apply first_separator in H as [-> H]; [|exact Hu|exact Hu'].
    apply first_separator in H as [H ->];
      try (apply pretty_Z_free; [apply digit_not; auto|discriminate]).
    apply (inj pretty) in H. auto.
  - eexists. unfold Storage.fileName.
    change ("/" +:+ pretty t +:+ "." +:+ Storage.interpolate (Storage.fileExt f))
      with (String Storage.slash
              (pretty t +:+ "." +:+ Storage.interpolate (Storage.fileExt f))).
    apply split_first_segment, Hu.
Qed.

Lemma upload_paths_are_namespaced_by_user_witness :
  ∃ rest,
    Storage.split Storage.slash
      (Storage.fileName "a1b2" 1700000000000
         {| Storage.name := "photo.jpg"; Storage.content := "" |})
    = "a1b2" :: rest.
Proof.
  apply (proj2 (upload_paths_are_namespaced_by_user "a1b2" "c3d4"
                  1700000000000 1700000000001
                  {| Storage.name := "photo.jpg"; Storage.content := "" |}
                  {| Storage.name := "photo.jpg"; Storage.content := "" |}
                  ltac:(simpl; repeat split; discriminate)
                  ltac:(simpl; repeat split; discriminate))).
Defined.

(** [uploadPhoto] stores the file under its path and returns the path and
    the public URL of that path, or fails and stores nothing: an object
    already stored is never replaced, and a second upload to its path is
    answered with an error. *)
Theorem uploadPhoto_never_overwrites (url : string → string)
    (b b' : gmap string string) (now : timestamp)
    (down : option Storage.storage_error) (f : Storage.file) (u : string)
    (res : Storage.upload_result) :
  Storage.uploadPhoto url b now down f u = (b', res) →
  (∀ p v, b !! p = Some v → b' !! p = Some v)
  ∧ (Storage.error res = None →
     b !! Storage.fileName u now f = None
     ∧ b' = <[Storage.fileName u now f := Storage.content f]> b
     ∧ Storage.data res
       = Some (Storage.fileName u now f, url (Storage.fileName u now f)))
  ∧ (∀ e, Storage.error res = Some e → Storage.data res = None ∧ b' = b)
  ∧ (is_Some (b !! Storage.fileName u now f) → is_Some (Storage.error res)).
Proof.
  unfold Storage.uploadPhoto, Storage.upload.
  destruct down as [e|].
  - intros [= <- <-]. simpl. repeat split; eauto; discriminate.
  - destruct (b !! Storage.fileName u now f) as [v|] eqn:E.
    + intros [= <- <-]. simpl. repeat split; eauto; discriminate.
    + intros [= <- <-]. simpl. split; [|split; [|split]].
      * intros p v Hp. rewrite lookup_insert_ne; [exact Hp|congruence].
      * auto.
      * discriminate.
      * intros [x Hx]. discriminate.
Qed.

Lemma uploadPhoto_never_overwrites_witness :
  ({[ "a1b2/5.jpg" := "old" ]} : gmap string string) !! "a1b2/5.jpg" = Some "old"
  ∧ (fst (Storage.uploadPhoto (λ p, p) {[ "a1b2/5.jpg" := "old" ]} 5 None
            {| Storage.name := "x.jpg"; Storage.content := "new" |}
            "a1b2")) !! "a1b2/5.jpg" = Some "old".
Proof.
  assert (H : ({[ "a1b2/5.jpg" := "old" ]} : gmap string string) !! "a1b2/5.jpg" = Some "old")
    by reflexivity.
  split; [exact H|].
  apply (proj1 (uploadPhoto_never_overwrites (λ p, p) {[ "a1b2/5.jpg" := "old" ]} _ 5 None
           {| Storage.name := "x.jpg"; Storage.content := "new" |} "a1b2"
           (snd (Storage.uploadPhoto (λ p, p) {[ "a1b2/5.jpg" := "old" ]} 5 None
                   {| Storage.name := "x.jpg"; Storage.content := "new" |}
                   "a1b2")) (surjective_pairing _)) "a1b2/5.jpg" "old" H).
Defined.

(** ** The catalog as the client reads it *)

Lemma by_label_total (label_le : relation string) :
  Total label_le → Total (by_label label_le).
Proof. intros T a b. apply T. Qed.

(** [getViolationTypes] returns every kind of the catalog once, with its
    row, ordered by label, and returns the same to every caller, signed in
    or not. *)
Theorem getViolationTypes_lists_the_whole_catalog
    (label_le : relation string) `{!∀ a b, Decision (label_le a b)}
    (db : database) (c c' : connection) :
  Total label_le →
  fault c tbl_violation_types = None →
  ∃ l, getViolationTypes label_le db c = succeed l
     ∧ (∀ k row, In (k, row) l ↔ violation_types db !! k = Some row)
     ∧ NoDup (map fst l)
     ∧ Sorted (by_label label_le) l
     ∧ (fault c' tbl_violation_types = None →
        getViolationTypes label_le db c' = succeed l).
Proof.
  intros T Hf. unfold getViolationTypes. rewrite Hf.
  eexists. split; [reflexivity|].
  pose proof (merge_sort_Permutation (by_label label_le)
                (map_to_list (violation_types db))) as Hp.
  split; [|split; [|split]].
  - intros k row. rewrite <- list_elem_of_In, Hp.
    apply elem_of_map_to_list.
  - rewrite Hp. apply NoDup_fst_map_to_list.
  - apply Sorted_merge_sort. apply by_label_total, T.
  - intros ->. reflexivity.
Qed.

Lemma getViolationTypes_lists_the_whole_catalog_witness :
  ∃ l, getViolationTypes code_order empty_db
         (online alice 0 0%N) = succeed l
     ∧ (∀ k row, In (k, row) l ↔ violation_types empty_db !! k = Some row)
     ∧ NoDup (map fst l)
     ∧ Sorted (by_label code_order) l
     ∧ (fault (offline bob 0 0%N) tbl_violation_types = None →
        getViolationTypes code_order empty_db
          (offline bob 0 0%N) = succeed l).
Proof.
  apply (getViolationTypes_lists_the_whole_catalog
           code_order empty_db
           (online alice 0 0%N) (offline bob 0 0%N)).
  - intros a b. apply String.leb_total.
  - reflexivity.
Defined.

(** ** The page *)

Lemma toFixed2_of_tenth (f : Z) :
  0 ≤ f →
  Page.toFixed2 (inject_Z f * (10 # 100))
  = pretty (f / 10) +:+ "." +:+ pretty (f mod 10) +:+ "0".
Proof.
  intros Hf. unfold Page.toFixed2.
  assert (H0 : (0 <= inject_Z f * (10 # 100))%Q).
  { apply Qmult_le_0_compat; [|discriminate].
    change 0%Q with (inject_Z 0). rewrite <- Zle_Qle. exact Hf. }
  rewrite (proj2 (Qle_bool_iff _ _) H0).
  assert (E : Qfloor (Qabs (inject_Z f * (10 # 100)) * 100 + (1 # 2))
              = 10 * f).
  { rewrite <- (Qfloor_plus_half (10 * f)). apply Qfloor_comp.
    rewrite (Qabs_pos _ H0), inject_Z_mult.
    change (inject_Z 10) with 10%Q. ring. }
  rewrite E.
  replace (10 * f / 100) with (f / 10)
    by (change 100 with (10 * 10); rewrite Z.div_mul_cancel_l; lia).
  replace (10 * f mod 100 / 10) with (f mod 10).
  2:{ change 100 with (10 * 10). rewrite Z.mul_mod_distr_l by lia.
      rewrite Z.mul_comm, Z.div_mul; lia. }
  replace (10 * f mod 10) with 0
    by (rewrite Z.mul_comm, Z.mod_mul; lia).
  reflexivity.
Qed.

(** The estimate the page shows is "0.00" when the selected kind is not
    in its list; for a listed kind with fine [f] it is [f] div 10, a dot,
    [f] mod 10 and a zero; and for each kind of the seeded catalog the
    estimate from the built-in list is the reward [calculate_reward] gives
    for the catalog fine, to two decimals. *)
Theorem estimatedReward_is_a_tenth_of_the_listed_fine :
  (∀ vs sel, Page.selectedViolationData vs sel = None →
             Page.estimatedReward vs sel = "0.00")
  ∧ (∀ vs sel v, Page.selectedViolationData vs sel = Some v →
       0 ≤ Page.fine v →
       Page.estimatedReward vs sel
       = pretty (Page.fine v / 10) +:+ "." +:+ pretty (Page.fine v mod 10)
         +:+ "0")
  ∧ (∀ k row, seed_violation_types !! k = Some row →
       Page.estimatedReward Page.defaultViolations (Some k)
       = Page.toFixed2 (decimal_value 2 (Sql.calculate_reward (fine row)))).
Proof.
  split; [|split].
  - intros vs sel H. unfold Page.estimatedReward. rewrite H. reflexivity.
  - intros vs sel v H Hf. unfold Page.estimatedReward. rewrite H.
    apply toFixed2_of_tenth, Hf.
  - intros k row H. unfold seed_violation_types in H. simpl in H.
    repeat (apply lookup_insert_Some in H as [[<- <-]|[_ H]];
            [vm_compute; reflexivity|]).
    rewrite lookup_empty in H. discriminate.
Qed.

Lemma estimatedReward_is_a_tenth_of_the_listed_fine_witness :
  Page.estimatedReward Page.defaultViolations (Some "bike") = "17.50"
  ∧ Page.estimatedReward Page.defaultViolations (Some "towing") = "0.00".
Proof.
  destruct estimatedReward_is_a_tenth_of_the_listed_fine as (H1 & H2 & _).
  split.
  - apply (H2 Page.defaultViolations (Some "bike")
             {| Page.id := "bike"; Page.label := "Bike Lane";
                Page.fine := 175; Page.icon := "🚲";
                Page.description := "Blocking bicycle lane" |}).
    + reflexivity.
    + simpl. lia.
  - apply H1. reflexivity.
Defined.

Lemma build_row_texts (now : timestamp) (i : uuid) (p : insert_payload)
    (r : report) :
  build_row now i p = Some r →
  location_text r = ins_location_text p ∧ photo_url r = ins_photo_url p.
Proof.
  unfold build_row, to_decimal.
  destruct (coerce_decimal 10 8 (ins_latitude p)); [|discriminate].
  destruct (coerce_decimal 11 8 (ins_longitude p)); [|discriminate].
  destruct (fits_precision 10 (round_scale 2 (ins_reward_amount p)));
    [|discriminate].
  destruct (fits_int4 (ins_fine_amount p)); [|discriminate].
  intros [= <-]. split; reflexivity.
Qed.

(** The three ways [createReport] ends. *)
Lemma createReport_cases (db : database) (c : connection)
    (a : Client.createReport_args) :
  (session c = None
   ∧ Client.createReport db c a = Client.Thrown "Not authenticated")
  ∨ (∃ e, Client.createReport db c a = Client.Returned (db, fail e))
  ∨ (∃ r, Client.createReport db c a
          = Client.Returned (with_reports db (reports db ++ [r]), succeed r)
        ∧ session c = Some (user_id r)
        ∧ violation_type r = Client.violationType a
        ∧ plate_number r = option_map toUpperCase (Client.plateNumber a)
        ∧ location_text r = Client.locationText a
        ∧ photo_url r = Client.photoUrl a
        ∧ status r = pending).
Proof.
  destruct (Client.createReport db c a) as [[db' resp]|msg] eqn:H.
  - right. pose proof H as H'.
    apply createReport_Returned in H' as (u & Hu & Hi).
    destruct (insert_single_cases db c
                (Client.report_payload u
                   (Client.resolve_fine db c (Client.violationType a)) a))
      as [[e He]|(db1 & r1 & He & Hr)];
      rewrite He in Hi; injection Hi as <- <-.
    + left. eauto.
    + right. exists r1.
      apply insert_report_inr in Hr as (Hb & Hown & _ & _ & ->).
      pose proof (build_row_texts _ _ _ _ Hb) as [Hl Hph].
      apply build_row_Some in Hb as (_ & _ & Hk & Hp & Hs & _).
      simpl in Hk, Hp, Hs, Hl, Hph. repeat split; assumption.
  - left. unfold Client.createReport, Client.getUser in H.
    destruct (session c); [discriminate|]. auto.
Qed.

(** The two ways an upload ends. *)
Lemma uploadPhoto_cases (url : string → string) (b : gmap string string)
    (now : timestamp) (down : option Storage.storage_error)
    (f : Storage.file) (u : string) :
  (∃ e, Storage.uploadPhoto url b now down f u
        = (b, {| Storage.data := None; Storage.error := Some e |})
      ∧ (down = Some e
         ∨ (e = Storage.already_exists
            ∧ is_Some (b !! Storage.fileName u now f))))
  ∨ (down = None ∧ b !! Storage.fileName u now f = None
     ∧ Storage.uploadPhoto url b now down f u
       = (<[Storage.fileName u now f := Storage.content f]> b,
          {| Storage.data := Some (Storage.fileName u now f,
                                   url (Storage.fileName u now f));
             Storage.error := None |})).
Proof.
  unfold Storage.uploadPhoto, Storage.upload.
  destruct down as [e|]; [left; eauto|].
  destruct (b !! Storage.fileName u now f) eqn:E; [left; eauto 10|].
  right. auto.
Qed.

(** [handleSubmit] does nothing at all without a user, a kind or a file;
    otherwise it ends with [isSubmitting] false, and it raises the alert
    exactly when no report was stored, in which case the tables are as
    before; success is shown exactly when a report was stored.  No photo
    already stored is lost, whatever happens. *)
Theorem handleSubmit_outcome (url : string → string) (txt : uuid → string)
    (w w' : Page.world) (c : connection)
    (down : option Storage.storage_error) (v v' : Page.view)
    (n : option Page.notice) :
  Page.handleSubmit url txt w c down v = (w', v', n) →
  (∀ p x, Page.photos w !! p = Some x → Page.photos w' !! p = Some x)
  ∧ (Page.user v = None ∨ Page.selectedViolation v = None
     ∨ Page.selectedViolation v = Some "" ∨ Page.uploadedFile v = None →
     w' = w ∧ v' = v ∧ n = None)
  ∧ (is_Some (Page.user v) → is_Some (Page.uploadedFile v) →
     (∃ k, Page.selectedViolation v = Some k ∧ k ≠ "") →
     Page.isSubmitting v' = false
     ∧ (is_Some n → Page.tables w' = Page.tables w
                    ∧ Page.showSuccess v' = Page.showSuccess v)
     ∧ (n = None →
        Page.showSuccess v' = true
        ∧ ∃ r, Page.tables w'
               = with_reports (Page.tables w)
                   (reports (Page.tables w) ++ [r]))).
Proof.
  unfold Page.handleSubmit.
  destruct (Page.user v) as [u|] eqn:Hu;
    [|intros [= <- <- <-]; split; [auto|]; split; [auto|];
      intros [x Hx]; discriminate].
  destruct (Page.selectedViolation v) as [k|] eqn:Hk;
    [|intros [= <- <- <-]; split; [auto|]; split; [auto|];
      intros _ _ (k & Hk' & _); discriminate].
  destruct (Page.uploadedFile v) as [f|] eqn:Hfile;
    [|intros [= <- <- <-]; split; [auto|]; split; [auto|];
      intros _ [x Hx]; discriminate].
  destruct (decide (k = "")) as [->|Hne].
  { rewrite bool_decide_eq_true_2 by reflexivity.
    intros [= <- <- <-]. split; [auto|]. split; [auto|].
    intros _ _ (k & Hk' & Hk''). congruence. }
  rewrite bool_decide_eq_false_2 by exact Hne.
  set (up := Storage.uploadPhoto url (Page.photos w) (clock c) down f (txt u)).
  assert (Hkeep : ∀ p x, Page.photos w !! p = Some x →
                         fst up !! p = Some x).
  { intros p x Hp. unfold up.
    destruct (uploadPhoto_cases url (Page.photos w) (clock c) down f (txt u))
      as [(e & -> & _)|(_ & Hnone & ->)]; simpl; [exact Hp|].
    rewrite lookup_insert_ne; [exact Hp|congruence]. }
  set (a := Page.submitted v k _).
  destruct (createReport_cases (Page.tables w) c a)
    as [[_ ->]|[[e ->]|(r & -> & _)]]; simpl;
    intros [= <- <- <-]; simpl;
    (split; [exact Hkeep|]);
    (split; [intros [H|[H|[H|H]]]; congruence|]);
    intros _ _ _; (split; [reflexivity|]).
  - split; [auto|discriminate].
  - split; [auto|discriminate].
  - split; [intros [x Hx]; discriminate|]. intros _. eauto.
Qed.

Lemma handleSubmit_outcome_witness :
  Page.handleSubmit public_url uuid_text start_world (online alice 1000 100%N)
    None fileless_view
  = (start_world, fileless_view, None).
Proof.
  destruct (handleSubmit_outcome public_url uuid_text start_world
              (fst (fst (Page.handleSubmit public_url uuid_text start_world
                           (online alice 1000 100%N) None fileless_view)))
              (online alice 1000 100%N) None fileless_view
              (snd (fst (Page.handleSubmit public_url uuid_text start_world
                           (online alice 1000 100%N) None fileless_view)))
              (snd (Page.handleSubmit public_url uuid_text start_world
                      (online alice 1000 100%N) None fileless_view)))
    as (_ & H & _).
  - reflexivity.
  - destruct H as (H1 & H2 & H3); [right; right; right; reflexivity|].
    rewrite (surjective_pairing (Page.handleSubmit _ _ _ _ _ _)).
    rewrite (surjective_pairing (fst (Page.handleSubmit _ _ _ _ _ _))).
    rewrite H1, H2, H3. reflexivity.
Defined.

(** The report [handleSubmit] stores: it is owned by the signed-in
    identity, pending, of the selected kind, with the plate of the form in
    upper case and the location text "Brooklyn, NY" whatever the position
    of the device; its photo URL is the public URL of the path under which
    the photo was stored by this call, or NULL when the upload failed, in
    which case no photo was stored. *)
Theorem handleSubmit_stored_report (url : string → string)
    (txt : uuid → string) (w w' : Page.world) (c : connection)
    (down : option Storage.storage_error) (v v' : Page.view)
    (u : uuid) (k : string) (f : Storage.file) :
  Page.handleSubmit url txt w c down v = (w', v', None) →
  Page.user v = Some u → Page.selectedViolation v = Some k → k ≠ "" →
  Page.uploadedFile v = Some f →
  ∃ r, Page.tables w'
       = with_reports (Page.tables w) (reports (Page.tables w) ++ [r])
     ∧ session c = Some (user_id r)
     ∧ violation_type r = k
     ∧ status r = pending
     ∧ location_text r = Some "Brooklyn, NY"
     ∧ plate_number r = Some (toUpperCase (Page.plateNumber v))
     ∧ ((photo_url r = None ∧ Page.photos w' = Page.photos w
         ∧ (is_Some down
            ∨ is_Some (Page.photos w
                       !! Storage.fileName (txt u) (clock c) f)))
        ∨ (photo_url r = Some (url (Storage.fileName (txt u) (clock c) f))
           ∧ Page.photos w !! Storage.fileName (txt u) (clock c) f = None
           ∧ Page.photos w' !! Storage.fileName (txt u) (clock c) f
             = Some (Storage.content f))).
Proof.
  unfold Page.handleSubmit. intros H Hu Hk Hne Hf. revert H.
  rewrite Hu, Hk, Hf, bool_decide_eq_false_2 by exact Hne.
  destruct (uploadPhoto_cases url (Page.photos w) (clock c) down f (txt u))
    as [(e & -> & He)|(Hd & Hnone & ->)]; simpl.
  - destruct (createReport_cases (Page.tables w) c (Page.submitted v k None))
      as [[_ ->]|[[e' ->]|(r & -> & Hs & Hkind & Hp & Hl & Hph & Hst)]];
      simpl; try discriminate.
    intros [= <- _]. simpl. exists r. simpl in *.
    repeat (split; [assumption || reflexivity|]).
    left. repeat split; try assumption.
    destruct He as [-> |[_ He]]; eauto.
  - destruct (createReport_cases (Page.tables w) c
                (Page.submitted v k
                   (Some (url (Storage.fileName (txt u) (clock c) f)))))
      as [[_ ->]|[[e' ->]|(r & -> & Hs & Hkind & Hp & Hl & Hph & Hst)]];
      simpl; try discriminate.
    intros [= <- _]. simpl. exists r. simpl in *.
    repeat (split; [assumption || reflexivity|]).
    right. split; [assumption|]. split; [assumption|].
    apply lookup_insert_eq.
Qed.

Lemma handleSubmit_stored_report_witness :
  ∃ r, Page.tables
         (fst (fst (Page.handleSubmit public_url uuid_text start_world
                      (online alice 1000 100%N) None ready_view)))
       = with_reports empty_db (reports empty_db ++ [r])
     ∧ location_text r = Some "Brooklyn, NY"
     ∧ plate_number r = Some "ABC-1234".
Proof.
  destruct (handleSubmit_stored_report public_url uuid_text start_world
              (fst (fst (Page.handleSubmit public_url uuid_text start_world
                           (online alice 1000 100%N) None ready_view)))
              (online alice 1000 100%N) None ready_view
              (snd (fst (Page.handleSubmit public_url uuid_text start_world
                           (online alice 1000 100%N) None ready_view)))
              alice "bike" jpeg)
    as (r & H1 & _ & _ & _ & H2 & H3 & _).
  - vm_compute. reflexivity.
  - reflexivity.
  - reflexivity.
  - discriminate.
  - reflexivity.
  - exists r. split; [exact H1|]. split; [exact H2|exact H3].
Defined.

(** A failed upload does not stop the submission: whenever [createReport]
    accepts the report without a photo, [handleSubmit] with a storage
    request that fails stores exactly that report, with a NULL photo URL,
    shows success and raises no alert. *)
Theorem handleSubmit_goes_on_without_the_photo (url : string → string)
    (txt : uuid → string) (w : Page.world) (c : connection)
    (e : Storage.storage_error) (v : Page.view) (u : uuid) (k : string)
    (f : Storage.file) (db' : database) (r : report) :
  Page.user v = Some u → Page.selectedViolation v = Some k → k ≠ "" →
  Page.uploadedFile v = Some f →
  Client.createReport (Page.tables w) c (Page.submitted v k None)
  = Client.Returned (db', succeed r) →
  Page.handleSubmit url txt w c (Some e) v
  = ({| Page.tables := db'; Page.photos := Page.photos w |},
     Page.settled v true, None)
  ∧ photo_url r = None.
Proof.
  intros Hu Hk Hne Hf H. split.
  - unfold Page.handleSubmit.
    rewrite Hu, Hk, Hf, bool_decide_eq_false_2 by exact Hne.
    simpl. rewrite H. reflexivity.
  - destruct (createReport_cases (Page.tables w) c (Page.submitted v k None))
      as [[_ E]|[[e' E]|(r' & E & _ & _ & _ & _ & Hph & _)]];
      rewrite E in H; try discriminate.
    injection H as _ <-. exact Hph.
Qed.

Lemma handleSubmit_goes_on_without_the_photo_witness :
  Page.handleSubmit public_url uuid_text start_world
    (online alice 1000 100%N) (Some Storage.storage_failure) ready_view
  = ({| Page.tables := with_reports empty_db [photoless_row];
        Page.photos := ∅ |},
     Page.settled ready_view true, None)
  ∧ photo_url photoless_row = None.
Proof.
  apply (handleSubmit_goes_on_without_the_photo public_url uuid_text
           start_world (online alice 1000 100%N) Storage.storage_failure
           ready_view alice "bike" jpeg
           (with_reports empty_db [photoless_row]) photoless_row).
  - reflexivity.
  - reflexivity.
  - discriminate.
  - reflexivity.
  - vm_compute. reflexivity.
Defined.

(** ** The reward and the window, once more *)

(** For every integer fine the reward is exactly a tenth of it: the
    rounding to two decimals never changes the value, and the amount the
    client computes is stored as the amount [calculate_reward] returns. *)
Theorem reward_is_exactly_a_tenth (f : Z) :
  Sql.calculate_reward f = 10 * f
  ∧ to_decimal 10 2 (Client.reward_of f)
    = (if fits_precision 10 (10 * f) then Some (Sql.calculate_reward f)
       else None)
  ∧ (decimal_value 2 (Sql.calculate_reward f) == inject_Z f / 10)%Q.
Proof.
  split; [apply calculate_reward_exact|]. split.
  - unfold to_decimal. rewrite reward_of_rounds, calculate_reward_exact.
    reflexivity.
  - rewrite calculate_reward_exact. unfold decimal_value.
    change (10 ^ Z.of_nat 2) with 100. rewrite inject_Z_mult.
    change (inject_Z 10) with 10%Q. change (inject_Z 100) with 100%Q.
    field.
Qed.


